(** * HackAssembler: a shallow embedding of HackAssembler.cpp

    The assembler reads a Hack assembly file three times: pass 1 binds
    labels, pass 2 binds variables, pass 3 writes one line of '0'/'1'
    characters per A- or C-instruction.  The embedding follows the C++
    source function by function:

    - [int] is a 32-bit two's-complement integer and [size_t] a 64-bit
      unsigned one, both carried by [Z] with the wrap-around written out;
    - [std::string] is [string]; [find], [substr] and [erase] follow the
      standard library, [std::out_of_range] included;
    - [std::unordered_map] is [gmap]; [operator[]] on an absent key
      inserts a value-initialised entry, which the model keeps;
    - the input file is the list of strings that successive [getline]
      calls deliver until the stream reports end of file. *)

From Stdlib Require Import ZArith Ascii String DecimalString Lia.
From stdpp Require Import base gmap strings list.

Local Open Scope Z_scope.

(** ** Results of a run *)

Inductive exn : Type :=
| out_of_range.

Inductive result (A : Type) : Type :=
| Ok (a : A)
| Throw (e : exn)
| OutOfFuel.

Arguments Ok {A} a.
Arguments Throw {A} e.
Arguments OutOfFuel {A}.

#[global] Instance result_ret : MRet result := fun A a => Ok a.

#[global] Instance result_bind : MBind result := fun A B f r =>
  match r with
  | Ok a => f a
  | Throw e => Throw e
  | OutOfFuel => OutOfFuel
  end.

(** The loop [while (parser->hasMoreLines()) { parser->advance(); body }]
    over the lines still to be read. *)
Fixpoint while_lines {St : Type} (body : St -> string -> result St)
    (st : St) (file : list string) : result St :=
  match file with
  | [] => Ok st
  | raw :: rest => st' ← body st raw; while_lines body st' rest
  end.

(** ** Machine integers *)

Definition INT_MAX : Z := 2147483647.

(** Conversion to (and wrap-around in) [int]. *)
Definition to_int (z : Z) : Z := (z + 2 ^ 31) mod 2 ^ 32 - 2 ^ 31.

(** Conversion to (and wrap-around in) [size_t]. *)
Definition to_size_t (z : Z) : Z := z mod 2 ^ 64.

(** [std::string::npos], which is what [-1] converts to. *)
Definition npos : Z := 2 ^ 64 - 1.

(** [(int)str[i]] for a (signed) [char]. *)
Definition int_of_char (c : ascii) : Z :=
  let n := Z.of_nat (nat_of_ascii c) in
  if 128 <=? n then n - 256 else n.

(** [std::to_string(int)]. *)
Definition to_string (z : Z) : string := NilZero.string_of_int (Z.to_int z).

(** ** std::string *)

Module Str.

Definition size (s : string) : Z := Z.of_nat (String.length s).

Definition empty (s : string) : bool :=
  match s with
  | EmptyString => true
  | String _ _ => false
  end.

Fixpoint take (n : nat) (s : string) : string :=
  match n, s with
  | S n', String a s' => String a (take n' s')
  | _, _ => EmptyString
  end.

Fixpoint drop (n : nat) (s : string) : string :=
  match n, s with
  | S n', String _ s' => drop n' s'
  | _, _ => s
  end.

Fixpoint starts_with (pat s : string) : bool :=
  match pat, s with
  | EmptyString, _ => true
  | String a pat', String b s' => Ascii.eqb a b && starts_with pat' s'
  | String _ _, EmptyString => false
  end.

(** Offset of the first occurrence of the character [c]. *)
Fixpoint index_of (c : ascii) (s : string) : option nat :=
  match s with
  | EmptyString => None
  | String a s' =>
      if Ascii.eqb a c then Some O else S <$> index_of c s'
  end.

(** Offset of the first occurrence of the string [pat]. *)
Fixpoint index_of_str (pat s : string) : option nat :=
  if starts_with pat s then Some O
  else match s with
       | EmptyString => None
       | String _ s' => S <$> index_of_str pat s'
       end.

(** [s.find(c, pos)] *)
Definition find (s : string) (c : ascii) (pos : Z) : Z :=
  if size s <=? pos then npos
  else match index_of c (drop (Z.to_nat pos) s) with
       | Some i => pos + Z.of_nat i
       | None => npos
       end.

(** [s.find(pat, pos)] for a C string [pat]. *)
Definition find_str (s pat : string) (pos : Z) : Z :=
  if size s <? pos then npos
  else match index_of_str pat (drop (Z.to_nat pos) s) with
       | Some i => pos + Z.of_nat i
       | None => npos
       end.

(** [s.substr(pos, len)]; [s.substr(pos)] is [substr s pos npos]. *)
Definition substr (s : string) (pos len : Z) : result string :=
  if size s <? pos then Throw out_of_range
  else Ok (take (Z.to_nat (Z.min len (size s - pos)))
             (drop (Z.to_nat pos) s)).

(** [s.erase(pos, len)], returning the new contents of [s]. *)
Definition erase (s : string) (pos len : Z) : result string :=
  if size s <? pos then Throw out_of_range
  else Ok (take (Z.to_nat pos) s
           +:+ drop (Z.to_nat (pos + Z.min len (size s - pos))) s).

End Str.

(** [x != -1] for a [size_t] value [x]: [-1] is converted to [npos]. *)
Definition ne_minus1 (x : Z) : bool := negb (x =? npos).

(** [x == -1] for a [size_t] value [x]. *)
Definition eq_minus1 (x : Z) : bool := x =? npos.

(** ** Free functions *)

(** [trim]: the loop [while ((index = s.find(' ', index)) != -1)
    s.erase(index, 1);].  [index] is an [int]: the result of [find] is
    converted to [int] on assignment, and back to [size_t] when it is
    passed on.  Every iteration takes one character out of [s]; on a
    line of at most [INT_MAX] characters [S (length s)] units of fuel
    are enough (lemma [trim_spec]). *)
Fixpoint trim_loop (fuel : nat) (s : string) (index : Z) : result string :=
  match fuel with
  | O => OutOfFuel
  | S fuel' =>
      let index := to_int (Str.find s " " (to_size_t index)) in
      if index =? -1 then Ok s
      else s' ← Str.erase s (to_size_t index) 1; trim_loop fuel' s' index
  end.

Definition trim (s : string) : result string :=
  let index := 0 in
  if negb (Str.empty s) then trim_loop (S (String.length s)) s index
  else Ok s.

(** [AllisNum]: the loop over [str[i]]. *)
Fixpoint AllisNum (str : string) : bool :=
  match str with
  | EmptyString => true
  | String c str' =>
      let tmp := int_of_char c in
      if (48 <=? tmp) && (tmp <=? 57) then AllisNum str' else false
  end.

(** [stonum]: the loop body over the [n] first characters; [None] stands
    for the early [return 0]. *)
Fixpoint stonum_loop (n : nat) (str : string) (num : Z) : option Z :=
  match n, str with
  | S n', String c str' =>
      let num := to_int (to_int (to_int (num * 10) + int_of_char c) - 48) in
      if 32767 <? num then None else stonum_loop n' str' num
  | _, _ => Some num
  end.

Definition stonum (str : string) : Z :=
  let n := to_int (Str.size str) in
  if 5 <? n then 0
  else
    let num := 0 in
    match stonum_loop (Z.to_nat n) str num with
    | Some num => num
    | None => 0
    end.

(** ** class Code *)

(** [m[k] = v] *)
Definition assign {V : Type} (m : gmap string V) (k : string) (v : V)
  : gmap string V := <[k := v]> m.

(** [m[k]] as an rvalue: an absent key is inserted with the
    value-initialised [dflt]. *)
Definition subscript {V : Type} (dflt : V) (m : gmap string V) (k : string)
  : V * gmap string V :=
  match m !! k with
  | Some v => (v, m)
  | None => (dflt, <[k := dflt]> m)
  end.

Record Code : Type := mkCode {
  destMap : gmap string string;
  compMap : gmap string string;
  jumpMap : gmap string string
}.

Module CodeInit.

Definition destMap : gmap string string :=
  let m := ∅ in
  let m := assign m "null" "000" in
  let m := assign m "M" "001" in
  let m := assign m "D" "010" in
  let m := assign m "DM" "011" in
  let m := assign m "MD" "011" in
  let m := assign m "A" "100" in
  let m := assign m "AM" "101" in
  let m := assign m "AD" "110" in
  let m := assign m "ADM" "111" in
  m.

Definition compMap : gmap string string :=
  let m := ∅ in
  let m := assign m "0" "101010" in
  let m := assign m "1" "111111" in
  let m := assign m "-1" "111010" in
  let m := assign m "D" "001100" in
  let m := assign m "A" "110000" in
  let m := assign m "M" "110000" in
  let m := assign m "!D" "001101" in
  let m := assign m "!A" "110001" in
  let m := assign m "!M" "110001" in
  let m := assign m "-D" "001111" in
  let m := assign m "-A" "110011" in
  let m := assign m "-M" "110011" in
  let m := assign m "D+1" "011111" in
  let m := assign m "A+1" "110111" in
  let m := assign m "M+1" "110111" in
  let m := assign m "D-1" "001110" in
  let m := assign m "A-1" "110010" in
  let m := assign m "M-1" "110010" in
  let m := assign m "D+A" "000010" in
  let m := assign m "D+M" "000010" in
  let m := assign m "D-A" "010011" in
  let m := assign m "D-M" "010011" in
  let m := assign m "A-D" "000111" in
  let m := assign m "M-D" "000111" in
  let m := assign m "D&A" "000000" in
  let m := assign m "D&M" "000000" in
  let m := assign m "D|A" "010101" in
  let m := assign m "D|M" "010101" in
  m.

Definition jumpMap : gmap string string :=
  let m := ∅ in
  let m := assign m "null" "000" in
  let m := assign m "JGT" "001" in
  let m := assign m "JEQ" "010" in
  let m := assign m "JGE" "011" in
  let m := assign m "JLT" "100" in
  let m := assign m "JNE" "101" in
  let m := assign m "JLE" "110" in
  let m := assign m "JMP" "111" in
  m.

End CodeInit.

(** The constructor [Code::Code()]. *)
Definition Code_new : Code :=
  mkCode CodeInit.destMap CodeInit.compMap CodeInit.jumpMap.

(** [Code::dest] *)
Definition Code_dest (d : string) (code : Code) : string * Code :=
  let '(v, m) := subscript EmptyString (destMap code) d in
  (v, mkCode m (compMap code) (jumpMap code)).

(** [Code::comp] *)
Definition Code_comp (c : string) (code : Code) : string * Code :=
  let '(v, m) := subscript EmptyString (compMap code) c in
  (if eq_minus1 (Str.find c "M" 0) then "0" +:+ v else "1" +:+ v,
   mkCode (destMap code) m (jumpMap code)).

(** [Code::jump] *)
Definition Code_jump (j : string) (code : Code) : string * Code :=
  let '(v, m) := subscript EmptyString (jumpMap code) j in
  (v, mkCode (destMap code) (compMap code) m).

(** ** class SymbolTable *)

(** The constructor [SymbolTable::SymbolTable()]. *)
Definition SymbolTable_new : gmap string Z :=
  let m := ∅ in
  let m := assign m "SP" 0 in
  let m := assign m "LCL" 1 in
  let m := assign m "ARG" 2 in
  let m := assign m "THIS" 3 in
  let m := assign m "THAT" 4 in
  let m := assign m "R0" 0 in
  let m := assign m "R1" 1 in
  let m := assign m "R2" 2 in
  let m := assign m "R3" 3 in
  let m := assign m "R4" 4 in
  let m := assign m "R5" 5 in
  let m := assign m "R6" 6 in
  let m := assign m "R7" 7 in
  let m := assign m "R8" 8 in
  let m := assign m "R9" 9 in
  let m := assign m "R10" 10 in
  let m := assign m "R11" 11 in
  let m := assign m "R12" 12 in
  let m := assign m "R13" 13 in
  let m := assign m "R14" 14 in
  let m := assign m "R15" 15 in
  let m := assign m "SCREEN" 16384 in
  let m := assign m "KBD" 24576 in
  m.

(** [SymbolTable::contains] *)
Definition contains (symbolMap : gmap string Z) (s : string) : bool :=
  bool_decide (is_Some (symbolMap !! s)).

(** [SymbolTable::getAddress] *)
Definition getAddress (symbolMap : gmap string Z) (s : string)
  : Z * gmap string Z := subscript 0 symbolMap s.

(** [SymbolTable::addEntry] *)
Definition addEntry (symbolMap : gmap string Z) (s : string) (a : Z)
  : gmap string Z := assign symbolMap s a.

(** ** class Parser *)

Definition A_INSTRUCTION : Z := 1.
Definition C_INSTRUCTION : Z := 2.
Definition L_INSTRUCTION : Z := 3.

(** [Parser::advance]: [raw] is what [getline] delivered. *)
Definition advance (raw : string) : result string := trim raw.

(** [Parser::instructionType] *)
Definition instructionType (line : string) : Z :=
  if ne_minus1 (Str.find line "@" 0) then A_INSTRUCTION
  else if ne_minus1 (Str.find line "(" 0) && ne_minus1 (Str.find line ")" 0)
       then L_INSTRUCTION
       else C_INSTRUCTION.

(** [Parser::symbol] *)
Definition symbol (line : string) : result string :=
  if ne_minus1 (Str.find line "@" 0)
  then Str.substr line (to_size_t (Str.find line "@" 0 + 1)) npos
  else Str.substr line (to_size_t (Str.find line "(" 0 + 1))
         (to_size_t (Str.find line ")" 0 - 1)).

(** [Parser::dest] *)
Definition dest (line : string) : result string :=
  if eq_minus1 (Str.find line "=" 0) then Ok "null"%string
  else Str.substr line 0 (Str.find line "=" 0).

(** [Parser::comp] *)
Definition comp (line : string) : result string :=
  if eq_minus1 (Str.find line "=" 0)
  then
    if eq_minus1 (Str.find line ";" 0) then Ok line
    else Str.substr line 0 (Str.find line ";" 0)
  else
    if eq_minus1 (Str.find line ";" 0)
    then Str.substr line (to_size_t (Str.find line "=" 0 + 1)) npos
    else Str.substr line (to_size_t (Str.find line "=" 0 + 1))
           (to_size_t (to_size_t (Str.find line ";" 0 - Str.find line "=" 0)
                       - 1)).

(** [Parser::jump] *)
Definition jump (line : string) : result string :=
  if eq_minus1 (Str.find line ";" 0) then Ok "null"%string
  else Str.substr line (to_size_t (Str.find line ";" 0 + 1)) npos.

(** ** main *)

(** The test [parser->line.empty() || parser->line.find("//") != -1]
    that opens the body of each of the three loops. *)
Definition ignored (line : string) : bool :=
  Str.empty line || ne_minus1 (Str.find_str line "//" 0).

(** Body of the first loop; the state is the symbol table and [address]. *)
Definition pass1_body (st : gmap string Z * Z) (raw : string)
  : result (gmap string Z * Z) :=
  let '(symbolTable, address) := st in
  line ← advance raw;
  if ignored line then Ok (symbolTable, address)
  else if instructionType line =? L_INSTRUCTION then
    symbol ← symbol line;
    if negb (contains symbolTable symbol)
    then Ok (addEntry symbolTable symbol address, address)
    else Ok (symbolTable, address)
  else Ok (symbolTable, to_int (address + 1)).

(** Body of the second loop. *)
Definition pass2_body (st : gmap string Z * Z) (raw : string)
  : result (gmap string Z * Z) :=
  let '(symbolTable, address) := st in
  line ← advance raw;
  if ignored line then Ok (symbolTable, address)
  else if instructionType line =? A_INSTRUCTION then
    symbol ← symbol line;
    if negb (contains symbolTable symbol) then
      if AllisNum symbol
      then Ok (addEntry symbolTable symbol (stonum symbol), address)
      else Ok (addEntry symbolTable symbol address, to_int (address + 1))
    else Ok (symbolTable, address)
  else Ok (symbolTable, address).

(** The loop [for (int i = 0; i < 15; i++) binaryCode =
    to_string((address >> i) & 1) + binaryCode;], [n] iterations from
    [i] on. *)
Fixpoint address_bits (n : nat) (i : Z) (address : Z) (binaryCode : string)
  : string :=
  match n with
  | O => binaryCode
  | S n' =>
      address_bits n' (i + 1) address
        (to_string (Z.land (Z.shiftr address i) 1) +:+ binaryCode)
  end.

(** The A-instruction branch of the third loop, once [address] is known. *)
Definition encodeAddress (address : Z) : string :=
  let binaryCode := EmptyString in
  let binaryCode := address_bits 15 0 address binaryCode in
  "0" +:+ binaryCode.

(** State of the third loop: the symbol table, the encoder tables and
    the lines written to the output file so far. *)
Record Emit : Type := mkEmit {
  emit_symbols : gmap string Z;
  emit_code : Code;
  emit_out : list string
}.

(** [if (!binaryCode.empty()) outputFile << binaryCode << endl;] *)
Definition write_line (out : list string) (binaryCode : string)
  : list string :=
  if negb (Str.empty binaryCode) then out ++ [binaryCode] else out.

(** Body of the third loop. *)
Definition pass3_body (st : Emit) (raw : string) : result Emit :=
  let binaryCode := EmptyString in
  line ← advance raw;
  if ignored line then Ok st
  else if instructionType line =? A_INSTRUCTION then
    symbol ← symbol line;
    let '(address, symbolTable) := getAddress (emit_symbols st) symbol in
    let binaryCode := encodeAddress address in
    Ok (mkEmit symbolTable (emit_code st)
          (write_line (emit_out st) binaryCode))
  else if instructionType line =? C_INSTRUCTION then
    dest ← dest line;
    comp ← comp line;
    jump ← jump line;
    let '(c, code) := Code_comp comp (emit_code st) in
    let '(d, code) := Code_dest dest code in
    let '(j, code) := Code_jump jump code in
    let binaryCode := "111" +:+ c +:+ d +:+ j in
    Ok (mkEmit (emit_symbols st) code (write_line (emit_out st) binaryCode))
  else Ok (mkEmit (emit_symbols st) (emit_code st)
             (write_line (emit_out st) binaryCode)).

Definition pass1 (file : list string) : result (gmap string Z * Z) :=
  while_lines pass1_body (SymbolTable_new, 0) file.

Definition pass2 (symbolTable : gmap string Z) (file : list string)
  : result (gmap string Z * Z) :=
  while_lines pass2_body (symbolTable, 16) file.

Definition pass3 (symbolTable : gmap string Z) (file : list string)
  : result Emit :=
  while_lines pass3_body (mkEmit symbolTable Code_new []) file.

(** The symbol table once both symbol passes are over. *)
Definition resolve (file : list string) : result (gmap string Z) :=
  '(symbolTable, _) ← pass1 file;
  '(symbolTable, _) ← pass2 symbolTable file;
  Ok symbolTable.

(** [main]: the exit code and the lines of the output file. *)
Definition main (file : list string) : result (Z * list string) :=
  symbolTable ← resolve file;
  st ← pass3 symbolTable file;
  Ok (0, emit_out st).

(** * Notions used to state the properties *)

(** [s] without its space characters. *)
Fixpoint without_spaces (s : string) : string :=
  match s with
  | EmptyString => EmptyString
  | String c s' =>
      if Ascii.eqb c " " then without_spaces s'
      else String c (without_spaces s')
  end.

(** [pat] occurs somewhere in [s]. *)
Definition occurs_in (pat s : string) : Prop :=
  ∃ x y : string, s = x +:+ pat +:+ y.

(** The sizes for which the [int] variables of the program do not
    overflow: a line of at most [INT_MAX] characters, and a file whose
    number of lines leaves room for the variable counter, which starts
    at 16. *)
Definition line_fits (raw : string) : Prop := Str.size raw <= INT_MAX.

Definition source_fits (file : list string) : Prop :=
  Z.of_nat (length file) + 16 <= INT_MAX ∧ Forall line_fits file.

(** What the three loops make of a raw line: the line is left out, or it
    is a label declaration, an address instruction or a computation
    instruction, with the fields that the parser extracts from it. *)
Inductive line_view : Type :=
| Ignored
| Label (s : string)
| Address (s : string)
| Computation (d c j : string).

Definition view_of_line (line : string) : result line_view :=
  if ignored line then Ok Ignored
  else if instructionType line =? A_INSTRUCTION then
    s ← symbol line; Ok (Address s)
  else if instructionType line =? L_INSTRUCTION then
    s ← symbol line; Ok (Label s)
  else
    d ← dest line; c ← comp line; j ← jump line; Ok (Computation d c j).

Definition view (raw : string) : result line_view :=
  line ← advance raw; view_of_line line.

(** An address or computation instruction: a line that takes up one
    address of the instruction memory. *)
Definition is_instruction (raw : string) : bool :=
  match view raw with
  | Ok (Address _) | Ok (Computation _ _ _) => true
  | _ => false
  end.

(** The number of address and computation instructions of [file]. *)
Definition instructions (file : list string) : Z :=
  Z.of_nat (length (filter is_instruction file)).

(** The three loop bodies as functions of the view of the line (lemmas
    [pass1_body_view], [pass2_body_view] and [pass3_body_view]). *)
Definition pass1_step (st : gmap string Z * Z) (v : line_view)
  : gmap string Z * Z :=
  match v with
  | Ignored => st
  | Label s => (if contains st.1 s then st.1 else addEntry st.1 s st.2, st.2)
  | Address _ | Computation _ _ _ => (st.1, to_int (st.2 + 1))
  end.

Definition pass2_step (st : gmap string Z * Z) (v : line_view)
  : gmap string Z * Z :=
  match v with
  | Address s =>
      if contains st.1 s then st
      else if AllisNum s then (addEntry st.1 s (stonum s), st.2)
           else (addEntry st.1 s st.2, to_int (st.2 + 1))
  | _ => st
  end.

Definition pass3_step (st : Emit) (v : line_view) : Emit :=
  match v with
  | Ignored | Label _ => st
  | Address s =>
      mkEmit (getAddress (emit_symbols st) s).2 (emit_code st)
        (emit_out st ++ [encodeAddress (getAddress (emit_symbols st) s).1])
  | Computation d c j =>
      let r1 := Code_comp c (emit_code st) in
      let r2 := Code_dest d r1.2 in
      let r3 := Code_jump j r2.2 in
      mkEmit (emit_symbols st) r3.2
        (emit_out st ++ ["111" +:+ r1.1 +:+ r2.1 +:+ r3.1])
  end.

(** The symbols of the address instructions of [file], in source order. *)
Definition address_symbol (raw : string) : option string :=
  match view raw with
  | Ok (Address s) => Some s
  | _ => None
  end.

Definition address_symbols (file : list string) : list string :=
  omap address_symbol file.

(** A variable, for a symbol table [t]: a symbol that [t] does not hold
    and that is not made of digits only. *)
Definition is_variable (t : gmap string Z) (s : string) : Prop :=
  t !! s = None ∧ AllisNum s = false.

#[global] Instance is_variable_dec t s : Decision (is_variable t s) :=
  (_ : Decision (t !! s = None ∧ AllisNum s = false)).

(** The distinct variables among the symbols [l]. *)
Definition variables (t : gmap string Z) (l : list string) : gset string :=
  list_to_set (filter (is_variable t) l).

(** The number that a string of decimal digits denotes. *)
Fixpoint decimal_value_from (acc : Z) (s : string) : Z :=
  match s with
  | EmptyString => acc
  | String c s' =>
      decimal_value_from (acc * 10 + (Z.of_nat (nat_of_ascii c) - 48)) s'
  end.

Definition decimal_value (s : string) : Z := decimal_value_from 0 s.

(** The character that [std::to_string] gives for a bit. *)
Definition bit_char (b : bool) : ascii := if b then "1"%char else "0"%char.

(** The number that a string of '0' and '1' denotes, most significant
    bit first. *)
Fixpoint binary_value_from (acc : Z) (s : string) : Z :=
  match s with
  | EmptyString => acc
  | String c s' =>
      binary_value_from (acc * 2 + (if Ascii.eqb c "1" then 1 else 0)) s'
  end.

Definition binary_value (s : string) : Z := binary_value_from 0 s.

(** Every character of [s] is '0' or '1'. *)
Fixpoint is_binary (s : string) : bool :=
  match s with
  | EmptyString => true
  | String c s' => (Ascii.eqb c "0" || Ascii.eqb c "1") && is_binary s'
  end.

(** [m[k]] read as a value: the empty string for an absent key. *)
Definition field (m : gmap string string) (k : string) : string :=
  default EmptyString (m !! k).

(** The register form of a computation mnemonic: A in place of M. *)
Fixpoint register_form (c : string) : string :=
  match c with
  | EmptyString => EmptyString
  | String a c' =>
      String (if Ascii.eqb a "M" then "A"%char else a) (register_form c')
  end.

(** The character [c] occurs in [s]. *)
Definition has_char (c : ascii) (s : string) : bool :=
  bool_decide (c ∈ list_ascii_of_string s).

(** The three tables as the specification lists them (the computation
    table in its register form). *)
Module SpecTables.

Definition comp : list (string * string) :=
  [("0", "101010"); ("D+1", "011111"); ("D-A", "010011");
   ("1", "111111"); ("A+1", "110111"); ("A-D", "000111");
   ("-1", "111010"); ("D-1", "001110"); ("D&A", "000000");
   ("D", "001100"); ("A-1", "110010"); ("D|A", "010101");
   ("A", "110000"); ("D+A", "000010"); ("!D", "001101");
   ("-D", "001111"); ("!A", "110001"); ("-A", "110011")].

Definition dest : list (string * string) :=
  [("null", "000"); ("M", "001"); ("D", "010"); ("MD", "011");
   ("A", "100"); ("AM", "101"); ("AD", "110"); ("AMD", "111")].

Definition jump : list (string * string) :=
  [("null", "000"); ("JGT", "001"); ("JEQ", "010"); ("JGE", "011");
   ("JLT", "100"); ("JNE", "101"); ("JLE", "110"); ("JMP", "111")].

End SpecTables.

(** The horizontal tab. *)
Definition tab : ascii := "009"%char.

(** The tables of [code] read like those of the constructor: the
    entries that [operator[]] has added hold the empty string. *)
Definition code_ok (code : Code) : Prop :=
  ∀ k, field (destMap code) k = field CodeInit.destMap k
       ∧ field (compMap code) k = field CodeInit.compMap k
       ∧ field (jumpMap code) k = field CodeInit.jumpMap k.

(** The line that the third loop writes for a computation instruction
    of fields [d], [c] and [j]. *)
Definition computation_line (d c j : string) : string :=
  "111" +:+ String (bit_char (has_char "M" c)) (field CodeInit.compMap c)
        +:+ field CodeInit.destMap d +:+ field CodeInit.jumpMap j.

(** Two source files used as examples. *)
Definition example_labels : list string :=
  ["@i"; "(LOOP)"; "D=M"; "@END"; "D;JGT // leave"; "D;JGT"; "(LOOP)";
   "@LOOP"; "0;JMP"; "(END)"; "(SP)"; "@7"; "@i"; "@sum"].

Definition example_literals : list string :=
  ["@123456"; "D=A"; "@40000"; "@32767"; "@ 007"].

(** * Further notions: fields of a line, output lines, the input file *)

(** A computation line put together from its fields:
    [dest=]comp[;jump]. *)
Definition join_fields (d : option string) (c : string) (j : option string)
  : string :=
  match d with Some d => d +:+ "=" | None => "" end
  +:+ c
  +:+ match j with Some j => ";" +:+ j | None => "" end.

(** The line that the third loop writes for a raw line, given the symbol
    table: none for an ignored line or a label. *)
Definition line_of (t : gmap string Z) (raw : string) : option string :=
  match view raw with
  | Ok (Address s) => Some (encodeAddress (default 0 (t !! s)))
  | Ok (Computation d c j) => Some (computation_line d c j)
  | _ => None
  end.

(** The three fields of a computation instruction are in the tables. *)
Definition valid_fields (d c j : string) : Prop :=
  is_Some (CodeInit.destMap !! d) ∧ is_Some (CodeInit.compMap !! c)
  ∧ is_Some (CodeInit.jumpMap !! j).

(** A well-formed output line: 16 characters, each '0' or '1'. *)
Definition binary16 (l : string) : Prop :=
  String.length l = 16%nat ∧ is_binary l = true.

(** The symbol that a raw line declares as a label, if it is one. *)
Definition label_of (raw : string) : option string :=
  match view raw with
  | Ok (Label s) => Some s
  | _ => None
  end.

(** A file used as an example: a loop that adds R0 to a variable. *)
Definition example_sum : list string :=
  ["// sum"; "@sum"; "M=0"; "(LOOP)"; "@R0"; "D=M"; "@END"; "D;JEQ";
   "@sum"; "M=D+M"; "@R0"; "M=M-1"; "@LOOP"; "0;JMP"; "(END)"; "";
   "@END"; "0 ; JMP"].

(** ** class Parser on its input stream *)

(** [std::ifstream] on a file that could be opened: the characters not
    yet read and the eofbit. *)
Record ifstream : Type := mkIfstream {
  unread : string;
  eofbit : bool
}.

(** The newline character, at which [getline] stops. *)
Definition newline : ascii := "010"%char.

(** [getline(inputFile, line)]: the characters up to the next newline,
    which is taken out of the stream and left out of the line; the
    eofbit is set when the end of the file comes first. *)
Fixpoint getline (unread : string) : string * ifstream :=
  match unread with
  | EmptyString => (EmptyString, mkIfstream EmptyString true)
  | String c rest =>
      if Ascii.eqb c newline then (EmptyString, mkIfstream rest false)
      else let '(line, inputFile) := getline rest in
           (String c line, inputFile)
  end.

(** The constructor [Parser::Parser], on a file of the given content. *)
Definition Parser_new (content : string) : ifstream :=
  mkIfstream content false.

(** [Parser::hasMoreLines] *)
Definition hasMoreLines (inputFile : ifstream) : bool :=
  negb (eofbit inputFile).

(** The loop [while (parser->hasMoreLines()) { parser->advance(); body }]
    on the stream; [body] is given what [getline] delivered. *)
Fixpoint read_lines {St : Type} (fuel : nat)
    (body : St -> string -> result St) (st : St) (inputFile : ifstream)
  : result St :=
  match fuel with
  | O => OutOfFuel
  | S fuel' =>
      if hasMoreLines inputFile then
        let '(raw, inputFile) := getline (unread inputFile) in
        st' ← body st raw; read_lines fuel' body st' inputFile
      else Ok st
  end.

(** One pass over a file: a new parser, and the loop until the end of
    the file.  Every turn of the loop but the last takes a newline out
    of the stream, so the fuel given is enough (lemma
    [read_lines_while]). *)
Definition read_pass {St : Type} (body : St -> string -> result St)
    (st : St) (content : string) : result St :=
  read_lines (S (S (String.length content))) body st (Parser_new content).

(** [main] on the content of the input file. *)
Definition main_file (content : string) : result (Z * list string) :=
  '(symbolTable, _) ← read_pass pass1_body (SymbolTable_new, 0) content;
  '(symbolTable, _) ← read_pass pass2_body (symbolTable, 16) content;
  st ← read_pass pass3_body (mkEmit symbolTable Code_new []) content;
  Ok (0, emit_out st).

(** The pieces of a text between its newlines: one more than it has
    newlines, the last being what follows the last newline. *)
Fixpoint lines_of (content : string) : list string :=
  match content with
  | EmptyString => [EmptyString]
  | String c rest =>
      if Ascii.eqb c newline then EmptyString :: lines_of rest
      else match lines_of rest with
           | l :: ls => String c l :: ls
           | [] => [String c EmptyString]
           end
  end.

(** The lines that a stream has yet to deliver. *)
Definition stream_lines (inputFile : ifstream) : list string :=
  if eofbit inputFile then [] else lines_of (unread inputFile).

(** ** The scenarios of the specification *)

Example scenario_add :
  main ["@2"; "D=A"; "@3"; "D=D+A"; "@0"; "M=D"]%string
  = Ok (0, ["0000000000000010"; "1110110000010000"; "0000000000000011";
            "1110000010010000"; "0000000000000000"; "1110001100001000"]%string).
Proof. vm_compute. reflexivity. Qed.

Example scenario_loop :
  main ["(LOOP)"; "@LOOP"; "0;JMP"]%string
  = Ok (0, ["0000000000000000"; "1110101010000111"]%string).
Proof. vm_compute. reflexivity. Qed.

Example scenario_variables :
  (symbolTable ← resolve ["@foo"; "D = M"; "@bar"; "M=D // x"; "@foo"]%string;
   Ok (symbolTable !! "foo"%string, symbolTable !! "bar"%string))
  = Ok (Some 16, Some 17).
Proof. vm_compute. reflexivity. Qed.
(** * Machine integers *)

#[local] Arguments String.append !_ _ / : simpl nomatch.

Lemma to_int_small z : - 2 ^ 31 <= z <= INT_MAX -> to_int z = z.
Proof.
  unfold to_int, INT_MAX. intros Hz.
  rewrite Z.mod_small by lia. lia.
Qed.

Lemma to_size_t_small z : 0 <= z < 2 ^ 64 -> to_size_t z = z.
Proof. unfold to_size_t. intros Hz. apply Z.mod_small. lia. Qed.

Lemma to_int_npos : to_int npos = -1.
Proof. reflexivity. Qed.

Lemma to_size_t_le z : 0 <= z -> 0 <= to_size_t z <= z.
Proof.
  unfold to_size_t. intros Hz. split.
  - apply Z.mod_pos_bound. lia.
  - apply Z.mod_le; lia.
Qed.

(** * Strings *)

Module StrFacts.
Import Str.

Lemma size_nonneg s : 0 <= size s.
Proof. unfold size. lia. Qed.

Lemma length_app s t :
  String.length (s +:+ t) = (String.length s + String.length t)%nat.
Proof. induction s as [|a s IH]; simpl; [done | by rewrite IH]. Qed.

Lemma size_app s t : size (s +:+ t) = size s + size t.
Proof. unfold size. rewrite length_app. lia. Qed.

Lemma app_nil_r s : s +:+ "" = s.
Proof. induction s as [|a s IH]; simpl; [done | by rewrite IH]. Qed.

Lemma app_assoc s t u : (s +:+ t) +:+ u = s +:+ (t +:+ u).
Proof. induction s as [|a s IH]; simpl; [done | by rewrite IH]. Qed.

Lemma empty_spec s : empty s = true <-> s = "".
Proof. destruct s; simpl; split; congruence. Qed.

Lemma drop_0 s : drop 0 s = s.
Proof. by destruct s. Qed.

Lemma take_app_length s t : take (String.length s) (s +:+ t) = s.
Proof. induction s as [|a s IH]; simpl; [by destruct t | by rewrite IH]. Qed.

Lemma drop_app_length s t : drop (String.length s) (s +:+ t) = t.
Proof. induction s as [|a s IH]; simpl; [by destruct t | done]. Qed.

Lemma take_all s n : (String.length s <= n)%nat -> take n s = s.
Proof.
  revert n. induction s as [|a s IH]; intros [|n] Hn; simpl in *;
    try done; try lia.
  rewrite IH; [done | lia].
Qed.

Lemma length_take n s :
  String.length (take n s) = Nat.min n (String.length s).
Proof.
  revert n. induction s as [|a s IH]; intros [|n]; simpl; try done.
  by rewrite IH.
Qed.

Lemma length_drop n s :
  String.length (drop n s) = (String.length s - n)%nat.
Proof.
  revert n. induction s as [|a s IH]; intros [|n]; simpl; try done.
Qed.

Lemma index_of_None c s :
  index_of c s = None ->
  ∀ x y, s ≠ x +:+ String c y.
Proof.
  induction s as [|a s IH]; simpl; intros Hi x y.
  - destruct x; discriminate.
  - destruct (Ascii.eqb a c) eqn:Hac; [done|].
    destruct (index_of c s) eqn:Hs; [done|].
    destruct x as [|b x]; simpl; intros [= -> Hx].
    + by rewrite Ascii.eqb_refl in Hac.
    + by eapply IH.
Qed.

Lemma index_of_Some c s i :
  index_of c s = Some i ->
  ∃ pre post, s = pre +:+ String c post
              ∧ String.length pre = i ∧ index_of c pre = None.
Proof.
  revert i. induction s as [|a s IH]; simpl; intros i Hi; [done|].
  destruct (Ascii.eqb a c) eqn:Hac.
  - apply Ascii.eqb_eq in Hac as ->. injection Hi as <-.
    by exists "", s.
  - destruct (index_of c s) as [j|] eqn:Hs; [|done].
    injection Hi as <-.
    destruct (IH j eq_refl) as (pre & post & -> & <- & Hpre).
    exists (String a pre), post. simpl. by rewrite Hac, Hpre.
Qed.

Lemma index_of_lt c s i :
  index_of c s = Some i -> (i < String.length s)%nat.
Proof.
  intros (pre & post & -> & <- & _)%index_of_Some.
  rewrite length_app. simpl. lia.
Qed.

(** [find] started right after a prefix [a]. *)
Lemma find_app a t c :
  find (a +:+ t) c (size a)
  = match index_of c t with
    | Some i => size a + Z.of_nat i
    | None => npos
    end.
Proof.
  unfold find. rewrite size_app.
  destruct (Z.leb_spec (size a + size t) (size a)) as [Hle|Hlt].
  - assert (t = "") as ->; [|done].
    destruct t; [done|]. unfold size in Hle. simpl in Hle. lia.
  - unfold size at 1. rewrite Nat2Z.id. by rewrite drop_app_length.
Qed.

Lemma find_0 s c :
  find s c 0
  = match index_of c s with
    | Some i => Z.of_nat i
    | None => npos
    end.
Proof. apply (find_app "" s c). Qed.

(** A position returned by [find] lies inside the string. *)
Lemma find_0_range s c :
  find s c 0 = npos ∨ 0 <= find s c 0 < size s.
Proof.
  rewrite find_0. destruct (index_of c s) as [i|] eqn:Hi; [right|by left].
  apply index_of_lt in Hi. unfold size. lia.
Qed.

Lemma erase_app a c post :
  erase (a +:+ String c post) (size a) 1 = Ok (a +:+ post).
Proof.
  unfold erase. rewrite size_app.
  assert (size (String c post) = 1 + size post) as ->
    by (unfold size; simpl; lia).
  pose proof (size_nonneg post) as Hpost.
  destruct (Z.ltb_spec (size a + (1 + size post)) (size a)); [lia|].
  rewrite Z.min_l by lia.
  unfold size at 1. rewrite Nat2Z.id, take_app_length.
  replace (Z.to_nat (size a + 1)) with (String.length (a +:+ String c ""))
    by (rewrite length_app; unfold size; simpl; lia).
  replace (a +:+ String c post) with ((a +:+ String c "") +:+ post) at 1
    by (by rewrite app_assoc).
  by rewrite drop_app_length.
Qed.

Lemma substr_ok s pos len :
  0 <= pos <= size s ->
  substr s pos len
  = Ok (take (Z.to_nat (Z.min len (size s - pos))) (drop (Z.to_nat pos) s)).
Proof.
  intros Hpos. unfold substr.
  by destruct (Z.ltb_spec (size s) pos); [lia|].
Qed.

End StrFacts.

(** * trim *)

Lemma without_spaces_app s t :
  without_spaces (s +:+ t) = without_spaces s +:+ without_spaces t.
Proof.
  induction s as [|a s IH]; simpl; [done|].
  destruct (Ascii.eqb a " "); simpl; by rewrite IH.
Qed.

Lemma without_spaces_id s :
  Str.index_of " " s = None -> without_spaces s = s.
Proof.
  induction s as [|a s IH]; simpl; [done|].
  destruct (Ascii.eqb a " "); [done|].
  destruct (Str.index_of " " s); [done|]. intros _. by rewrite IH.
Qed.

Lemma length_without_spaces s :
  (String.length (without_spaces s) <= String.length s)%nat.
Proof.
  induction s as [|a s IH]; simpl; [done|].
  destruct (Ascii.eqb a " "); simpl; lia.
Qed.

(** The loop of [trim], entered at [index = size a] with no space left
    in [a], removes the spaces of the rest. *)
Lemma trim_loop_spec fuel a t :
  Str.size (a +:+ t) <= INT_MAX ->
  (String.length t < fuel)%nat ->
  trim_loop fuel (a +:+ t) (Str.size a) = Ok (a +:+ without_spaces t).
Proof.
  revert a t. induction fuel as [|fuel IH]; intros a t Hfit Hfuel; [lia|].
  pose proof (StrFacts.size_nonneg a) as Ha.
  pose proof (StrFacts.size_nonneg t) as Ht.
  rewrite StrFacts.size_app in Hfit. unfold INT_MAX in Hfit.
  simpl. rewrite to_size_t_small by lia. rewrite StrFacts.find_app.
  destruct (Str.index_of " " t) as [i|] eqn:Hi.
  - destruct (StrFacts.index_of_Some _ _ _ Hi) as (pre & post & -> & <- & Hpre).
    rewrite StrFacts.size_app in Hfit.
    assert (Str.size (String " " post) = 1 + Str.size post) as Hsz
      by (unfold Str.size; simpl; lia).
    pose proof (StrFacts.size_nonneg pre) as Hp.
    pose proof (StrFacts.size_nonneg post) as Hq.
    fold (Str.size pre).
    rewrite to_int_small by (unfold INT_MAX; lia).
    destruct (Z.eqb_spec (Str.size a + Str.size pre) (-1)); [lia|].
    rewrite to_size_t_small by lia.
    rewrite <- StrFacts.size_app, <- StrFacts.app_assoc.
    rewrite StrFacts.erase_app. simpl.
    rewrite IH.
    + rewrite without_spaces_app. simpl.
      by rewrite (without_spaces_id pre), StrFacts.app_assoc.
    + rewrite !StrFacts.size_app. unfold INT_MAX. lia.
    + rewrite StrFacts.length_app in Hfuel. simpl in Hfuel. lia.
  - rewrite to_int_npos. simpl. by rewrite without_spaces_id.
Qed.

(** On a line of at most [INT_MAX] characters [trim] returns normally,
    and what it returns is the line without its space characters. *)
Lemma trim_spec s : line_fits s -> trim s = Ok (without_spaces s).
Proof.
  intros Hfit. unfold trim. destruct s as [|c s]; [done|].
  apply (trim_loop_spec _ "" (String c s)); [done|lia].
Qed.
(** * The parser never throws *)

Lemma size_take_drop n m s :
  Str.size (Str.take n (Str.drop m s)) <= Str.size s.
Proof.
  unfold Str.size. rewrite StrFacts.length_take, StrFacts.length_drop. lia.
Qed.

(** [s.substr(f + 1, len)] where [f] was returned by [find]. *)
Lemma substr_after s f len :
  f = npos ∨ 0 <= f < Str.size s ->
  ∃ r, Str.substr s (to_size_t (f + 1)) len = Ok r ∧ Str.size r <= Str.size s.
Proof.
  intros Hf.
  assert (0 <= to_size_t (f + 1) <= Str.size s) as Hpos.
  { destruct Hf as [->|Hf].
    - change (to_size_t (npos + 1)) with 0.
      pose proof (StrFacts.size_nonneg s). lia.
    - pose proof (to_size_t_le (f + 1)). lia. }
  rewrite StrFacts.substr_ok by done.
  eexists. split; [done|]. apply size_take_drop.
Qed.

Lemma substr_0 s len :
  ∃ r, Str.substr s 0 len = Ok r ∧ Str.size r <= Str.size s.
Proof.
  pose proof (StrFacts.size_nonneg s).
  rewrite StrFacts.substr_ok by lia.
  eexists. split; [done|]. apply size_take_drop.
Qed.

Lemma symbol_ok line :
  ∃ s, symbol line = Ok s ∧ Str.size s <= Str.size line.
Proof.
  unfold symbol.
  destruct (ne_minus1 _); apply substr_after, StrFacts.find_0_range.
Qed.

Lemma dest_ok line : ∃ d, dest line = Ok d.
Proof.
  unfold dest. destruct (eq_minus1 _); [by eexists|].
  destruct (substr_0 line (Str.find line "=" 0)) as (r & -> & _). by eexists.
Qed.

Lemma comp_ok line :
  ∃ c, comp line = Ok c ∧ Str.size c <= Str.size line.
Proof.
  unfold comp. destruct (eq_minus1 _), (eq_minus1 _).
  - by eexists.
  - apply substr_0.
  - apply substr_after, StrFacts.find_0_range.
  - apply substr_after, StrFacts.find_0_range.
Qed.

Lemma jump_ok line : ∃ j, jump line = Ok j.
Proof.
  unfold jump. destruct (eq_minus1 _); [by eexists|].
  destruct (substr_after line (Str.find line ";" 0) npos) as (r & -> & _);
    [apply StrFacts.find_0_range | by eexists].
Qed.

Lemma view_of_line_ok line : ∃ v, view_of_line line = Ok v.
Proof.
  unfold view_of_line. destruct (ignored line); [by eexists|].
  destruct (symbol_ok line) as (s & -> & _).
  destruct (dest_ok line) as (d & ->).
  destruct (comp_ok line) as (c & -> & _).
  destruct (jump_ok line) as (j & ->).
  repeat case_match; by eexists.
Qed.

Lemma advance_ok raw : line_fits raw -> advance raw = Ok (without_spaces raw).
Proof. apply trim_spec. Qed.

(** Every line of at most [INT_MAX] characters has a view. *)
Lemma view_ok raw : line_fits raw -> ∃ v, view raw = Ok v.
Proof.
  intros Hfit. unfold view. rewrite advance_ok by done.
  apply view_of_line_ok.
Qed.

(** The symbol of a label or of an address instruction is no longer
    than the line it comes from. *)
Lemma view_symbol_fits raw s :
  line_fits raw ->
  view raw = Ok (Label s) ∨ view raw = Ok (Address s) ->
  line_fits s.
Proof.
  intros Hfit Hv. unfold view in Hv. rewrite advance_ok in Hv by done.
  simpl in Hv. unfold view_of_line in Hv.
  destruct (symbol_ok (without_spaces raw)) as (s' & Hs' & Hle).
  rewrite Hs' in Hv. simpl in Hv.
  assert (s' = s) as ->.
  { destruct (dest_ok (without_spaces raw)) as (d & Hd).
    destruct (comp_ok (without_spaces raw)) as (c & Hc & _).
    destruct (jump_ok (without_spaces raw)) as (j & Hj).
    rewrite Hd, Hc, Hj in Hv. simpl in Hv.
    repeat case_match; destruct Hv; congruence. }
  pose proof (length_without_spaces raw).
  unfold line_fits, Str.size in *. lia.
Qed.

(** The computation field is no longer than the line it comes from. *)
Lemma view_comp_fits raw d c j :
  line_fits raw -> view raw = Ok (Computation d c j) -> line_fits c.
Proof.
  intros Hfit Hv. unfold view in Hv. rewrite advance_ok in Hv by done.
  simpl in Hv. unfold view_of_line in Hv.
  destruct (symbol_ok (without_spaces raw)) as (s' & Hs' & _).
  destruct (dest_ok (without_spaces raw)) as (d' & Hd).
  destruct (comp_ok (without_spaces raw)) as (c' & Hc & Hle).
  destruct (jump_ok (without_spaces raw)) as (j' & Hj).
  rewrite Hs', Hd, Hc, Hj in Hv. simpl in Hv.
  assert (c' = c) as -> by (repeat case_match; congruence).
  pose proof (length_without_spaces raw).
  unfold line_fits, Str.size in *. lia.
Qed.

(** * The loop bodies, by view *)

Lemma pass1_body_view st raw v :
  view raw = Ok v -> pass1_body st raw = Ok (pass1_step st v).
Proof.
  destruct st as [t a]. unfold view, pass1_body, view_of_line.
  destruct (advance raw) as [line| |]; simpl; try done.
  destruct (ignored line); [by intros [= <-]|].
  unfold instructionType, A_INSTRUCTION, L_INSTRUCTION, C_INSTRUCTION.
  destruct (ne_minus1 (Str.find line "@" 0)); simpl.
  { destruct (symbol line); simpl; [|done..]. by intros [= <-]. }
  destruct (ne_minus1 (Str.find line "(" 0) && ne_minus1 (Str.find line ")" 0));
    simpl.
  { destruct (symbol line) as [s| |]; simpl; [|done..]. intros [= <-]. simpl.
    by destruct (contains t s). }
  destruct (dest line); simpl; [|done..].
  destruct (comp line); simpl; [|done..].
  destruct (jump line); simpl; [|done..]. by intros [= <-].
Qed.

Lemma pass2_body_view st raw v :
  view raw = Ok v -> pass2_body st raw = Ok (pass2_step st v).
Proof.
  destruct st as [t a]. unfold view, pass2_body, view_of_line.
  destruct (advance raw) as [line| |]; simpl; try done.
  destruct (ignored line); [by intros [= <-]|].
  unfold instructionType, A_INSTRUCTION, L_INSTRUCTION, C_INSTRUCTION.
  destruct (ne_minus1 (Str.find line "@" 0)); simpl.
  { destruct (symbol line) as [s| |]; simpl; [|done..]. intros [= <-]. simpl.
    by destruct (contains t s), (AllisNum s). }
  destruct (ne_minus1 (Str.find line "(" 0) && ne_minus1 (Str.find line ")" 0));
    simpl.
  { destruct (symbol line) as [s| |]; simpl; [|done..]. by intros [= <-]. }
  destruct (dest line); simpl; [|done..].
  destruct (comp line); simpl; [|done..].
  destruct (jump line); simpl; [|done..]. by intros [= <-].
Qed.

Lemma pass3_body_view st raw v :
  view raw = Ok v -> pass3_body st raw = Ok (pass3_step st v).
Proof.
  destruct st as [t code out]. unfold view, pass3_body, view_of_line.
  destruct (advance raw) as [line| |]; simpl; try done.
  destruct (ignored line); [by intros [= <-]|].
  unfold instructionType, A_INSTRUCTION, L_INSTRUCTION, C_INSTRUCTION.
  destruct (ne_minus1 (Str.find line "@" 0)); simpl.
  { destruct (symbol line) as [s| |]; simpl; [|done..]. intros [= <-]. simpl.
    by destruct (getAddress t s). }
  destruct (ne_minus1 (Str.find line "(" 0) && ne_minus1 (Str.find line ")" 0));
    simpl.
  { destruct (symbol line) as [s| |]; simpl; [|done..]. by intros [= <-]. }
  destruct (dest line) as [d| |]; simpl; [|done..].
  destruct (comp line) as [c| |]; simpl; [|done..].
  destruct (jump line) as [j| |]; simpl; [|done..]. intros [= <-]. simpl.
  destruct (Code_comp c code) as [r1 code1]; simpl.
  destruct (Code_dest d code1) as [r2 code2]; simpl.
  destruct (Code_jump j code2) as [r3 code3]; simpl.
  reflexivity.
Qed.
(** * The loops *)

Lemma while_lines_app {St : Type} (body : St -> string -> result St) st l1 l2 :
  while_lines body st (l1 ++ l2)
  = st' ← while_lines body st l1; while_lines body st' l2.
Proof.
  revert st. induction l1 as [|raw l1 IH]; intros st; simpl; [done|].
  destruct (body st raw) as [st'| |]; simpl; [apply IH|done..].
Qed.

Lemma while_lines_cons {St : Type} (body : St -> string -> result St)
    st st' raw rest :
  body st raw = Ok st' ->
  while_lines body st (raw :: rest) = while_lines body st' rest.
Proof. intros H. simpl. by rewrite H. Qed.

Lemma contains_true (t : gmap string Z) s v :
  t !! s = Some v -> contains t s = true.
Proof. intros H. unfold contains. apply bool_decide_eq_true. by eexists. Qed.

Lemma contains_false (t : gmap string Z) s :
  t !! s = None -> contains t s = false.
Proof.
  intros H. unfold contains. apply bool_decide_eq_false.
  rewrite H. by intros [? ?].
Qed.

Lemma instructions_cons raw file :
  instructions (raw :: file)
  = (if is_instruction raw then 1 else 0) + instructions file.
Proof.
  unfold instructions. destruct (is_instruction raw) eqn:Hraw.
  - rewrite filter_cons_True by (by apply Is_true_true). simpl length. lia.
  - rewrite filter_cons_False by (by apply Is_true_false). lia.
Qed.

Lemma instructions_range file :
  0 <= instructions file <= Z.of_nat (length file).
Proof.
  unfold instructions. pose proof (length_filter (λ r, is_instruction r) file).
  lia.
Qed.

Lemma source_fits_cons raw file :
  source_fits (raw :: file) -> line_fits raw ∧ source_fits file.
Proof.
  intros [Hlen Hall]. apply Forall_cons in Hall as [Hraw Hall].
  simpl in Hlen. repeat split; try done. lia.
Qed.

(** ** Pass 1 *)

(** The first loop, from any table [t] and any counter [a] that cannot
    overflow while the lines of [file] are read. *)
Lemma pass1_run file : ∀ (t : gmap string Z) a,
  Forall line_fits file ->
  - 2 ^ 31 <= a -> a + Z.of_nat (length file) <= INT_MAX ->
  ∃ t' : gmap string Z,
    while_lines pass1_body (t, a) file = Ok (t', a + instructions file)
    ∧ (∀ s v, t !! s = Some v -> t' !! s = Some v)
    ∧ (∀ s, t !! s = None ->
            (∀ r, r ∈ file -> view r ≠ Ok (Label s)) -> t' !! s = None)
    ∧ (∀ pre raw post s,
         file = pre ++ raw :: post ->
         view raw = Ok (Label s) ->
         t !! s = None ->
         (∀ r, r ∈ pre -> view r ≠ Ok (Label s)) ->
         t' !! s = Some (a + instructions pre)).
Proof.
  induction file as [|raw0 file IH]; intros t a Hfit Ha Hlen.
  { exists t. simpl. change (instructions []) with 0.
    rewrite Z.add_0_r. repeat split; try done.
    intros [|??] ???; discriminate. }
  apply Forall_cons in Hfit as [Hraw0 Hfit]. simpl length in Hlen.
  destruct (view_ok raw0 Hraw0) as [v0 Hv0].
  pose proof (instructions_range file) as Hrange.
  assert (∃ (t0 : gmap string Z) a0,
    pass1_step (t, a) v0 = (t0, a0)
    ∧ a0 = a + (if is_instruction raw0 then 1 else 0)
    ∧ (∀ s v, t !! s = Some v -> t0 !! s = Some v)
    ∧ (∀ s, t !! s = None -> v0 ≠ Label s -> t0 !! s = None)
    ∧ (∀ s, t !! s = None -> v0 = Label s -> t0 !! s = Some a))
    as (t0 & a0 & Hstep & Ha0 & Hkeep & Hnone & Hnew).
  { unfold is_instruction. rewrite Hv0.
    destruct v0 as [|s0|s0|d0 c0 j0]; simpl.
    - exists t, a. repeat split; try done. lia.
    - destruct (t !! s0) as [v|] eqn:Hs0.
      + rewrite (contains_true _ _ _ Hs0). exists t, a.
        repeat split; try done; [lia|]. intros s Hs [= ->]. congruence.
      + rewrite (contains_false _ _ Hs0). exists (addEntry t s0 a), a.
        unfold addEntry, assign. repeat split; [lia|..].
        * intros s v Hs. rewrite lookup_insert_ne; [done|congruence].
        * intros s Hs Hne. rewrite lookup_insert_ne; [done|congruence].
        * intros s Hs [= ->]. by rewrite lookup_insert_eq.
    - exists t, (to_int (a + 1)). rewrite to_int_small by (unfold INT_MAX in *; lia).
      repeat split; done.
    - exists t, (to_int (a + 1)). rewrite to_int_small by (unfold INT_MAX in *; lia).
      repeat split; done. }
  destruct (IH t0 a0 Hfit) as (t' & Hrun & Hkeep' & Hnone' & Hfirst');
    [destruct (is_instruction raw0); lia..|].
  exists t'.
  rewrite (while_lines_cons _ _ (t0, a0))
    by (by rewrite (pass1_body_view _ _ _ Hv0), Hstep).
  rewrite Hrun, instructions_cons, Ha0. repeat split.
  - f_equal. f_equal. lia.
  - intros s v Hs. eauto.
  - intros s Hs Hno. apply Hnone'.
    + apply Hnone; [done|]. intros ->. eapply Hno; [left|done].
    + intros r Hr. apply Hno. by right.
  - intros pre raw post s Hfile Hv Hs Hno.
    destruct pre as [|r0 pre]; simpl in Hfile; injection Hfile as <- ->.
    + change (instructions []) with 0. rewrite Z.add_0_r.
      apply Hkeep', Hnew; [done|]. congruence.
    + rewrite instructions_cons, Z.add_assoc, <- Ha0.
      eapply Hfirst'; [done..| |].
      * apply Hnone; [done|]. intros ->. eapply Hno; [left|done].
      * intros r Hr. apply Hno. by right.
Qed.
(** ** Pass 2 *)

Lemma elem_of_variables t l s :
  s ∈ variables t l <-> s ∈ l ∧ is_variable t s.
Proof.
  unfold variables. rewrite elem_of_list_to_set, list_elem_of_filter. tauto.
Qed.

Lemma variables_nil t : variables t [] = ∅.
Proof. done. Qed.

Lemma variables_cons_new t s l :
  is_variable t s -> variables t (s :: l) = {[s]} ∪ variables t l.
Proof.
  intros Hs. apply set_eq. intros x.
  rewrite elem_of_union, elem_of_singleton, !elem_of_variables, elem_of_cons.
  split; [tauto|]. intros [->|?]; tauto.
Qed.

Lemma variables_cons_old t s l :
  ¬ is_variable t s -> variables t (s :: l) = variables t l.
Proof.
  intros Hs. apply set_eq. intros x.
  rewrite !elem_of_variables, elem_of_cons.
  split; [|tauto]. intros [[->|?] ?]; tauto.
Qed.

Lemma variables_insert (t : gmap string Z) s v l :
  variables (<[s := v]> t) l = variables t l ∖ {[s]}.
Proof.
  apply set_eq. intros x.
  rewrite elem_of_difference, elem_of_singleton, !elem_of_variables.
  unfold is_variable. destruct (decide (x = s)) as [->|Hne].
  - rewrite lookup_insert_eq. split; [intros (_ & [=] & _)|tauto].
  - rewrite lookup_insert_ne by done. tauto.
Qed.

Lemma size_variables_le t l : (size (variables t l) <= length l)%nat.
Proof.
  induction l as [|s l IH]; [done|]. simpl length.
  destruct (decide (is_variable t s)) as [Hs|Hs].
  - rewrite (variables_cons_new _ _ _ Hs).
    pose proof (size_union_alt {[s]} (variables t l)) as Hsz.
    rewrite size_singleton in Hsz.
    assert (variables t l ∖ {[s]} ⊆ variables t l) as Hsub
      by apply subseteq_difference_l, reflexivity.
    apply subseteq_size in Hsub. lia.
  - rewrite (variables_cons_old _ _ _ Hs). lia.
Qed.

Lemma address_symbols_cons raw file :
  address_symbols (raw :: file)
  = match address_symbol raw with
    | Some s => s :: address_symbols file
    | None => address_symbols file
    end.
Proof. done. Qed.

Lemma length_address_symbols file :
  (length (address_symbols file) <= length file)%nat.
Proof.
  induction file as [|raw file IH]; [done|].
  rewrite address_symbols_cons. destruct (address_symbol raw); simpl; lia.
Qed.

(** One step of the second loop. *)
Lemma pass2_step_spec (t : gmap string Z) a raw v :
  view raw = Ok v ->
  - 2 ^ 31 <= a -> a + 1 <= INT_MAX ->
  ∃ (t0 : gmap string Z) a0,
    pass2_step (t, a) v = (t0, a0)
    ∧ a <= a0 <= a + 1
    ∧ (∀ s x, t !! s = Some x -> t0 !! s = Some x)
    ∧ (∀ l, a0 + Z.of_nat (size (variables t0 l))
            = a + Z.of_nat (size (variables t (address_symbols [raw] ++ l))))
    ∧ (∀ s, t !! s = None -> s ∉ address_symbols [raw] -> t0 !! s = None)
    ∧ (∀ s, v = Address s -> is_variable t s -> t0 !! s = Some a)
    ∧ (∀ s, v = Address s -> t !! s = None -> AllisNum s = true ->
            t0 !! s = Some (stonum s)).
Proof.
  intros Hv Ha Hmax.
  rewrite address_symbols_cons. unfold address_symbol. rewrite Hv.
  change (address_symbols []) with (@nil string).
  destruct v as [|s0|s0|d0 c0 j0]; simpl;
    try (by exists t, a; repeat split; try lia).
  destruct (t !! s0) as [x0|] eqn:Hs0.
  { rewrite (contains_true _ _ _ Hs0). exists t, a.
    repeat split; try done; try lia.
    - intros l. rewrite variables_cons_old; [done|].
      unfold is_variable. intros [? _]. congruence.
    - intros s [= ->] [? _]. congruence.
    - intros s [= ->]. congruence. }
  rewrite (contains_false _ _ Hs0).
  destruct (AllisNum s0) eqn:Hnum.
  - exists (addEntry t s0 (stonum s0)), a. unfold addEntry, assign.
    repeat split; try lia.
    + intros s x Hs. rewrite lookup_insert_ne; [done|congruence].
    + intros l. rewrite variables_cons_old, variables_insert.
      * do 3 f_equal. apply set_eq. intros x.
        rewrite elem_of_difference, elem_of_singleton, elem_of_variables.
        unfold is_variable. split; [tauto|].
        intros (? & ? & ?). repeat split; try done. congruence.
      * unfold is_variable. intros [_ ?]. congruence.
    + intros s Hs Hni. rewrite lookup_insert_ne; [done|].
      intros ->. apply Hni. left.
    + intros s [= ->] [_ ?]. congruence.
    + intros s [= ->] _ _. by rewrite lookup_insert_eq.
  - exists (addEntry t s0 a), (to_int (a + 1)). unfold addEntry, assign.
    rewrite to_int_small by (unfold INT_MAX in *; lia).
    repeat split; try lia.
    + intros s x Hs. rewrite lookup_insert_ne; [done|congruence].
    + intros l. rewrite variables_cons_new by done.
      rewrite variables_insert.
      pose proof (size_union_alt {[s0]} (variables t l)) as Hsz.
      rewrite size_singleton in Hsz. lia.
    + intros s Hs Hni. rewrite lookup_insert_ne; [done|].
      intros ->. apply Hni. left.
    + intros s [= ->] _. by rewrite lookup_insert_eq.
    + intros s [= ->] _ ?. congruence.
Qed.

(** The second loop, from any table [t] and any counter [a] that cannot
    overflow while the lines of [file] are read. *)
Lemma pass2_run file : ∀ (t : gmap string Z) a,
  Forall line_fits file ->
  - 2 ^ 31 <= a -> a + Z.of_nat (length file) <= INT_MAX ->
  ∃ t' : gmap string Z,
    while_lines pass2_body (t, a) file
    = Ok (t', a + Z.of_nat (size (variables t (address_symbols file))))
    ∧ (∀ s x, t !! s = Some x -> t' !! s = Some x)
    ∧ (∀ s, t !! s = None -> s ∉ address_symbols file -> t' !! s = None)
    ∧ (∀ pre raw post s,
         file = pre ++ raw :: post ->
         view raw = Ok (Address s) ->
         is_variable t s ->
         s ∉ address_symbols pre ->
         t' !! s
         = Some (a + Z.of_nat (size (variables t (address_symbols pre)))))
    ∧ (∀ s, t !! s = None -> AllisNum s = true ->
            s ∈ address_symbols file -> t' !! s = Some (stonum s)).
Proof.
  induction file as [|raw0 file IH]; intros t a Hfit Ha Hlen.
  { exists t. change (address_symbols []) with (@nil string).
    rewrite variables_nil, size_empty, Z.add_0_r. cbn [while_lines].
    repeat split; try done.
    - intros [|??] ???; discriminate.
    - intros s _ _ Hin. by apply elem_of_nil in Hin. }
  apply Forall_cons in Hfit as [Hraw0 Hfit]. simpl length in Hlen.
  destruct (view_ok raw0 Hraw0) as [v0 Hv0].
  destruct (pass2_step_spec t a raw0 v0 Hv0 Ha)
    as (t0 & a0 & Hstep & Ha0 & Hkeep & Hsize & Hnone & Hnew & Hnum); [lia|].
  destruct (IH t0 a0 Hfit) as (t' & Hrun & Hkeep' & Hnone' & Hfirst' & Hnum');
    [lia..|].
  assert (∀ l, address_symbols (raw0 :: l) = address_symbols [raw0] ++ address_symbols l)
    as Hsyms.
  { intros l. rewrite !address_symbols_cons.
    by destruct (address_symbol raw0). }
  exists t'.
  rewrite (while_lines_cons _ _ (t0, a0))
    by (by rewrite (pass2_body_view _ _ _ Hv0), Hstep).
  rewrite Hrun, Hsize, <- Hsyms. repeat split.
  - eauto.
  - intros s Hs Hni. rewrite Hsyms in Hni. apply not_elem_of_app in Hni as [??].
    apply Hnone'; [by apply Hnone | done].
  - intros pre raw post s Hfile Hv Hs Hni.
    destruct pre as [|r0 pre]; simpl in Hfile; injection Hfile as <- ->.
    + change (address_symbols []) with (@nil string).
      rewrite variables_nil, size_empty, Z.add_0_r.
      apply Hkeep', Hnew; [congruence|done].
    + rewrite Hsyms in Hni. apply not_elem_of_app in Hni as [Hni0 Hni].
      rewrite Hsyms, <- Hsize.
      eapply Hfirst'; [done..| |done].
      split; [|apply Hs]. apply Hnone; [apply Hs|done].
  - intros s Hs Hdigits Hin. rewrite Hsyms in Hin.
    destruct (decide (s ∈ address_symbols [raw0])) as [Hin0|Hni0].
    + apply Hkeep', Hnum; [|done..].
      rewrite address_symbols_cons in Hin0. unfold address_symbol in Hin0.
      rewrite Hv0 in Hin0. destruct v0; try (by apply elem_of_nil in Hin0).
      apply list_elem_of_singleton in Hin0. congruence.
    + apply elem_of_app in Hin as [?|Hin]; [done|].
      apply Hnum'; [by apply Hnone | done | done].
Qed.
(** * Decimal literals *)

Lemma digit_char c :
  (48 <=? int_of_char c) && (int_of_char c <=? 57) = true ->
  int_of_char c = Z.of_nat (nat_of_ascii c) ∧ 48 <= int_of_char c <= 57.
Proof.
  unfold int_of_char. intros H. apply andb_prop in H as [H1 H2].
  apply Z.leb_le in H1, H2.
  destruct (128 <=? Z.of_nat (nat_of_ascii c)) eqn:Hc; [|lia].
  pose proof (nat_ascii_bounded c). lia.
Qed.

Lemma decimal_value_from_ge acc s :
  AllisNum s = true -> 0 <= acc -> acc <= decimal_value_from acc s.
Proof.
  revert acc. induction s as [|c s IH]; intros acc Hnum Hacc; simpl; [lia|].
  simpl in Hnum.
  destruct ((48 <=? int_of_char c) && (int_of_char c <=? 57)) eqn:Hc; [|done].
  apply digit_char in Hc as [Hc1 Hc2].
  etrans; [|apply IH; [done|lia]]. lia.
Qed.

(** The loop of [stonum], entered with [0 <= num <= 32767], on a string
    of digits. *)
Lemma stonum_loop_spec s : ∀ num,
  AllisNum s = true -> 0 <= num <= 32767 ->
  stonum_loop (String.length s) s num
  = if 32767 <? decimal_value_from num s then None
    else Some (decimal_value_from num s).
Proof.
  induction s as [|c s IH]; intros num Hnum Hrange; simpl.
  { by destruct (Z.ltb_spec 32767 num); [lia|]. }
  simpl in Hnum.
  destruct ((48 <=? int_of_char c) && (int_of_char c <=? 57)) eqn:Hc; [|done].
  apply digit_char in Hc as [Hc1 Hc2].
  rewrite (to_int_small (num * 10)) by (unfold INT_MAX; lia).
  rewrite (to_int_small (num * 10 + _)) by (unfold INT_MAX; lia).
  rewrite to_int_small by (unfold INT_MAX; lia).
  rewrite <- Hc1, <- Z.add_sub_assoc.
  destruct (Z.ltb_spec 32767 (num * 10 + (int_of_char c - 48))) as [Hbig|Hsmall].
  - pose proof (decimal_value_from_ge (num * 10 + (int_of_char c - 48)) s
                  Hnum ltac:(lia)).
    by destruct (Z.ltb_spec 32767
                   (decimal_value_from (num * 10 + (int_of_char c - 48)) s));
      [|lia].
  - apply IH; [done|lia].
Qed.

(** [stonum] on a string of digits: 0 for more than 5 characters or a
    value above 32767, the value otherwise. *)
Lemma stonum_spec s :
  AllisNum s = true -> line_fits s ->
  stonum s
  = if (5 <? Str.size s) || (32767 <? decimal_value s) then 0
    else decimal_value s.
Proof.
  intros Hnum Hfit. unfold stonum, line_fits in *.
  pose proof (StrFacts.size_nonneg s) as Hsz.
  rewrite to_int_small by lia.
  destruct (5 <? Str.size s); [done|]. simpl.
  unfold Str.size at 1. rewrite Nat2Z.id.
  rewrite stonum_loop_spec by (done || lia).
  fold (decimal_value s). by destruct (32767 <? decimal_value s).
Qed.

Lemma stonum_range s :
  AllisNum s = true -> line_fits s -> 0 <= stonum s <= 32767.
Proof.
  intros Hnum Hfit. rewrite stonum_spec by done.
  pose proof (decimal_value_from_ge 0 s Hnum ltac:(lia)) as Hge.
  fold (decimal_value s) in Hge.
  destruct (5 <? Str.size s); simpl; [lia|].
  destruct (Z.ltb_spec 32767 (decimal_value s)); lia.
Qed.

(** No predefined symbol is made of digits only. *)
Lemma predefined_not_digits s :
  AllisNum s = true -> SymbolTable_new !! s = None.
Proof.
  intros Hnum. destruct (SymbolTable_new !! s) as [v|] eqn:Hs; [|done].
  assert (map_Forall (λ k _, AllisNum k = false) SymbolTable_new) as Hall
    by (apply (bool_decide_unpack _); by vm_compute).
  specialize (Hall s v Hs). simpl in Hall. congruence.
Qed.

Lemma elem_of_address_symbols file raw s :
  raw ∈ file -> view raw = Ok (Address s) -> s ∈ address_symbols file.
Proof.
  intros Hin Hv. unfold address_symbols. apply list_elem_of_omap.
  exists raw. split; [done|]. unfold address_symbol. by rewrite Hv.
Qed.
(** * Comment lines *)

Lemma starts_with_app pat y : Str.starts_with pat (pat +:+ y) = true.
Proof.
  induction pat as [|a pat IH]; simpl; [done|].
  by rewrite Ascii.eqb_refl, IH.
Qed.

Lemma index_of_str_unfold pat s :
  Str.index_of_str pat s
  = if Str.starts_with pat s then Some O
    else match s with
         | EmptyString => None
         | String _ s' => S <$> Str.index_of_str pat s'
         end.
Proof. by destruct s. Qed.

(** If [pat] occurs in [s], the search finds it, at the latest where
    that occurrence starts. *)
Lemma index_of_str_app pat x y :
  ∃ i, Str.index_of_str pat (x +:+ pat +:+ y) = Some i
       ∧ (i <= String.length x)%nat.
Proof.
  induction x as [|a x (i & IH & Hi)].
  - exists O. change ("" +:+ pat +:+ y) with (pat +:+ y).
    by rewrite index_of_str_unfold, starts_with_app.
  - change (String a x +:+ pat +:+ y) with (String a (x +:+ pat +:+ y)).
    rewrite index_of_str_unfold.
    destruct (Str.starts_with pat (String a (x +:+ pat +:+ y))).
    + exists O. split; [done|lia].
    + rewrite IH. exists (S i). split; [done|simpl; lia].
Qed.

Lemma occurs_in_without_spaces raw :
  occurs_in "//" raw -> occurs_in "//" (without_spaces raw).
Proof.
  intros (x & y & ->). exists (without_spaces x), (without_spaces y).
  by rewrite !without_spaces_app.
Qed.

Lemma line_fits_without_spaces raw :
  line_fits raw -> line_fits (without_spaces raw).
Proof.
  pose proof (length_without_spaces raw).
  unfold line_fits, Str.size. lia.
Qed.

(** A line in which "//" occurs is ignored by the three loops. *)
Lemma ignored_comment line :
  line_fits line -> occurs_in "//" line -> ignored line = true.
Proof.
  intros Hfit (x & y & ->). unfold ignored. apply orb_true_iff. right.
  unfold Str.find_str.
  pose proof (StrFacts.size_nonneg (x +:+ "//" +:+ y)) as Hsz.
  destruct (Z.ltb_spec (Str.size (x +:+ "//" +:+ y)) 0); [lia|].
  rewrite StrFacts.drop_0.
  destruct (index_of_str_app "//" x y) as (i & -> & Hi).
  unfold line_fits, INT_MAX in Hfit.
  rewrite StrFacts.size_app in Hfit.
  pose proof (StrFacts.size_nonneg ("//" +:+ y)).
  unfold ne_minus1, npos. apply negb_true_iff, Z.eqb_neq.
  unfold Str.size in *. lia.
Qed.

Lemma view_comment raw :
  line_fits raw -> occurs_in "//" raw -> view raw = Ok Ignored.
Proof.
  intros Hfit Hocc. unfold view. rewrite advance_ok by done.
  change (view_of_line (without_spaces raw) = Ok Ignored).
  unfold view_of_line.
  by rewrite ignored_comment
    by auto using line_fits_without_spaces, occurs_in_without_spaces.
Qed.

(** A line that a loop body leaves the state unchanged on can be taken
    out of the file. *)
Lemma while_lines_skip {St : Type} (body : St -> string -> result St)
    pre raw post :
  (∀ st, body st raw = Ok st) ->
  ∀ st, while_lines body st (pre ++ raw :: post)
        = while_lines body st (pre ++ post).
Proof.
  intros Hraw st. rewrite !while_lines_app.
  destruct (while_lines body st pre) as [st'| |]; simpl; [|done..].
  by rewrite Hraw.
Qed.
(** * Address instructions *)

Lemma to_string_bit address i :
  0 <= i ->
  to_string (Z.land (Z.shiftr address i) 1)
  = String (bit_char (Z.testbit address i)) "".
Proof.
  intros Hi. change 1 with (Z.ones 1) at 1.
  rewrite Z.land_ones by lia. change (2 ^ 1) with 2.
  rewrite <- Z.bit0_mod, Z.shiftr_spec by lia. rewrite Z.add_0_l.
  destruct (Z.testbit address i); reflexivity.
Qed.

Lemma address_bits_acc n : ∀ i address acc,
  address_bits n i address acc = address_bits n i address "" +:+ acc.
Proof.
  induction n as [|n IH]; intros i address acc; simpl; [done|].
  rewrite (IH _ _ (_ +:+ acc)), (IH _ _ (_ +:+ "")).
  by rewrite StrFacts.app_nil_r, StrFacts.app_assoc.
Qed.

(** One more iteration puts the lowest of the bits at the end. *)
Lemma address_bits_S n i address :
  0 <= i ->
  address_bits (S n) i address ""
  = address_bits n (i + 1) address ""
    +:+ String (bit_char (Z.testbit address i)) "".
Proof.
  intros Hi. simpl. rewrite address_bits_acc, to_string_bit by done.
  by rewrite StrFacts.app_nil_r.
Qed.

Lemma length_address_bits n : ∀ i address,
  0 <= i -> String.length (address_bits n i address "") = n.
Proof.
  induction n as [|n IH]; intros i address Hi; [done|].
  rewrite address_bits_S, StrFacts.length_app, IH by lia. simpl. lia.
Qed.

Lemma is_binary_app s t : is_binary (s +:+ t) = is_binary s && is_binary t.
Proof.
  induction s as [|c s IH]; simpl; [done|].
  by rewrite IH, andb_assoc.
Qed.

Lemma is_binary_address_bits n : ∀ i address,
  0 <= i -> is_binary (address_bits n i address "") = true.
Proof.
  induction n as [|n IH]; intros i address Hi; [done|].
  rewrite address_bits_S, is_binary_app, IH by lia.
  by destruct (Z.testbit address i).
Qed.

Lemma binary_value_from_app s t : ∀ acc,
  binary_value_from acc (s +:+ t)
  = binary_value_from (binary_value_from acc s) t.
Proof. induction s as [|c s IH]; intros acc; simpl; [done|apply IH]. Qed.

(** Read back, the bits of [n] iterations from [i] on are the [n] bits
    of [address] from bit [i] upwards. *)
Lemma binary_value_address_bits n : ∀ i address,
  0 <= i ->
  binary_value (address_bits n i address "")
  = Z.shiftr address i mod 2 ^ Z.of_nat n.
Proof.
  induction n as [|n IH]; intros i address Hi.
  { simpl. by rewrite Z.mod_1_r. }
  rewrite address_bits_S by done. unfold binary_value in *.
  rewrite binary_value_from_app, IH by lia. simpl binary_value_from.
  rewrite Nat2Z.inj_succ, Z.pow_succ_r by lia.
  rewrite Z.rem_mul_r by lia.
  rewrite <- (Z.shiftr_shiftr address i 1) by lia.
  rewrite (Z.shiftr_div_pow2 _ 1) by lia. change (2 ^ 1) with 2.
  rewrite <- Z.bit0_mod, Z.shiftr_spec by lia. rewrite Z.add_0_l.
  generalize ((Z.shiftr address i / 2) mod 2 ^ Z.of_nat n). intros q.
  destruct (Z.testbit address i); cbn [bit_char Z.b2z];
    vm_compute (Ascii.eqb _ _); cbv iota; lia.
Qed.

(** The characters are the bits, most significant first: the bit of
    weight [2 ^ (i + k)] stands [k] places before the end. *)
Lemma get_address_bits address n : ∀ i k,
  0 <= i -> (k < n)%nat ->
  String.get (n - 1 - k) (address_bits n i address "")
  = Some (bit_char (Z.testbit address (i + Z.of_nat k))).
Proof.
  induction n as [|n IH]; intros i k Hi Hk; [lia|].
  rewrite address_bits_S by done.
  destruct k as [|k].
  - replace (S n - 1 - 0)%nat
      with (0 + String.length (address_bits n (i + 1) address ""))%nat
      by (rewrite length_address_bits; lia).
    rewrite <- append_correct2. simpl. by rewrite Z.add_0_r.
  - rewrite <- append_correct1 by (rewrite length_address_bits; lia).
    replace (S n - 1 - S k)%nat with (n - 1 - k)%nat by lia.
    rewrite IH by lia. do 3 f_equal. lia.
Qed.
(** * The encoder tables *)

(** Case analysis on the key and value of an entry of a closed table. *)
Ltac enum_table H :=
  apply elem_of_map_to_list in H;
  match type of H with
  | _ ∈ ?l => let l' := eval vm_compute in l in change l with l' in H
  end;
  repeat (apply elem_of_cons in H as [H|H]; [injection H as -> ->|]);
  [..|by apply elem_of_nil in H].

(** Closed facts about the tables: conjunctions and [Forall] over a
    closed list are taken apart, what remains is computed. *)
Ltac table_facts :=
  repeat match goal with
    | |- _ ∧ _ => split
    | |- Forall _ [] => apply Forall_nil_2
    | |- Forall _ (_ :: _) => apply Forall_cons_2
    | |- Forall _ ?l => let l' := eval vm_compute in l in change l with l'
    end;
  vm_compute; exact eq_refl.

Lemma index_of_has_char c s :
  Str.index_of c s = None <-> has_char c s = false.
Proof.
  unfold has_char. rewrite bool_decide_eq_false.
  induction s as [|a s IH]; simpl.
  - split; [intros _ H; by apply elem_of_nil in H|done].
  - rewrite elem_of_cons. destruct (Ascii.eqb_spec a c) as [->|Hne].
    + split; [done|]. intros H. destruct H. by left.
    + destruct (Str.index_of c s); simpl.
      * split; [done|]. intros H. exfalso.
        assert (c ∉ list_ascii_of_string s) as Hni
          by (intros Hin; apply H; by right).
        by apply IH in Hni.
      * split; [|done]. intros _ [->|Hin]; [done|]. by apply IH.
Qed.

(** [c.find(ch) == -1] says whether [ch] occurs in [c]. *)
Lemma find_has_char s c :
  line_fits s -> eq_minus1 (Str.find s c 0) = negb (has_char c s).
Proof.
  intros Hfit. rewrite StrFacts.find_0. unfold eq_minus1.
  destruct (Str.index_of c s) as [i|] eqn:Hi.
  - apply StrFacts.index_of_lt in Hi as Hlt.
    destruct (has_char c s) eqn:Hc.
    + apply Z.eqb_neq. unfold line_fits, Str.size, INT_MAX, npos in *. lia.
    + apply index_of_has_char in Hc. congruence.
  - apply index_of_has_char in Hi as ->. reflexivity.
Qed.

Lemma subscript_field m k :
  (subscript EmptyString m k).1 = field m k
  ∧ ∀ k', field (subscript EmptyString m k).2 k' = field m k'.
Proof.
  unfold subscript, field. destruct (m !! k) as [v|] eqn:Hk; simpl.
  - done.
  - split; [done|]. intros k'. destruct (decide (k = k')) as [<-|Hne].
    + by rewrite lookup_insert_eq, Hk.
    + by rewrite lookup_insert_ne.
Qed.

(** What [Code::comp] returns, whatever the tables hold: the
    source-select bit comes from the scan of the mnemonic. *)
Lemma Code_comp_value code c :
  line_fits c ->
  (Code_comp c code).1
  = String (bit_char (has_char "M" c)) (field (compMap code) c).
Proof.
  intros Hfit. unfold Code_comp.
  pose proof (subscript_field (compMap code) c) as [Hv _].
  destruct (subscript EmptyString (compMap code) c) as [v m]. simpl in *.
  rewrite find_has_char, Hv by done.
  by destruct (has_char "M" c).
Qed.

Lemma Code_dest_value code d : (Code_dest d code).1 = field (destMap code) d.
Proof.
  unfold Code_dest.
  pose proof (subscript_field (destMap code) d) as [Hv _].
  by destruct (subscript EmptyString (destMap code) d) as [v m].
Qed.

Lemma Code_jump_value code j : (Code_jump j code).1 = field (jumpMap code) j.
Proof.
  unfold Code_jump.
  pose proof (subscript_field (jumpMap code) j) as [Hv _].
  by destruct (subscript EmptyString (jumpMap code) j) as [v m].
Qed.

(** The valid computation mnemonics and their codes. *)
Lemma compMap_entry c v :
  CodeInit.compMap !! c = Some v ->
  line_fits c
  ∧ String.length v = 6%nat
  ∧ CodeInit.compMap !! register_form c = Some v.
Proof. intros H. enum_table H; by vm_compute. Qed.

Lemma destMap_entry d v :
  CodeInit.destMap !! d = Some v -> String.length v = 3%nat.
Proof. intros H. enum_table H; by vm_compute. Qed.

Lemma jumpMap_entry j v :
  CodeInit.jumpMap !! j = Some v -> String.length v = 3%nat.
Proof. intros H. enum_table H; by vm_compute. Qed.
(** * Pass 3 *)

Lemma code_ok_new : code_ok Code_new.
Proof. by intros k. Qed.

(** One step of the third loop. *)
Lemma pass3_step_spec st raw v :
  line_fits raw -> view raw = Ok v -> code_ok (emit_code st) ->
  code_ok (emit_code (pass3_step st v))
  ∧ emit_out (pass3_step st v)
    = emit_out st
      ++ match v with
         | Ignored | Label _ => []
         | Address s => [encodeAddress (getAddress (emit_symbols st) s).1]
         | Computation d c j => [computation_line d c j]
         end.
Proof.
  intros Hfit Hv Hok. destruct v as [|s|s|d c j]; simpl;
    try (by rewrite ?app_nil_r).
  pose proof (view_comp_fits _ _ _ _ Hfit Hv) as Hc.
  destruct st as [t code out]. simpl in *.
  rewrite Code_comp_value, Code_dest_value, Code_jump_value by done.
  unfold Code_comp, Code_dest, Code_jump.
  pose proof (subscript_field (compMap code) c) as [_ Hc'].
  destruct (subscript EmptyString (compMap code) c) as [vc mc].
  simpl in *.
  pose proof (subscript_field (destMap code) d) as [_ Hd'].
  destruct (subscript EmptyString (destMap code) d) as [vd md].
  simpl in *.
  pose proof (subscript_field (jumpMap code) j) as [_ Hj'].
  destruct (subscript EmptyString (jumpMap code) j) as [vj mj].
  simpl in *.
  split.
  - intros k. destruct (Hok k) as (Hkd & Hkc & Hkj).
    by rewrite Hd', Hc', Hj'.
  - unfold computation_line.
    destruct (Hok c) as (_ & -> & _).
    destruct (Hok d) as (-> & _ & _).
    by destruct (Hok j) as (_ & _ & ->).
Qed.

(** The third loop ends normally and writes one line per address or
    computation instruction. *)
Lemma pass3_run file : ∀ st,
  Forall line_fits file -> code_ok (emit_code st) ->
  ∃ st' out,
    while_lines pass3_body st file = Ok st'
    ∧ code_ok (emit_code st')
    ∧ emit_out st' = emit_out st ++ out
    ∧ Z.of_nat (length out) = instructions file.
Proof.
  induction file as [|raw file IH]; intros st Hfit Hok.
  { exists st, []. by rewrite app_nil_r. }
  apply Forall_cons in Hfit as [Hraw Hfit].
  destruct (view_ok raw Hraw) as [v Hv].
  destruct (pass3_step_spec st raw v Hraw Hv Hok) as [Hok1 Hout1].
  destruct (IH (pass3_step st v) Hfit Hok1) as (st' & out & Hrun & Hok' & Hout & Hlen).
  eexists st', _.
  rewrite (while_lines_cons _ _ (pass3_step st v))
    by (by apply pass3_body_view).
  split; [done|]. split; [done|]. split.
  - by rewrite Hout, Hout1, <- app_assoc.
  - rewrite instructions_cons, length_app, Nat2Z.inj_add, Hlen.
    unfold is_instruction. rewrite Hv. by destruct v.
Qed.

Lemma field_length d c j :
  (String.length (field CodeInit.destMap d) <= 3
   ∧ String.length (field CodeInit.compMap c) <= 6
   ∧ String.length (field CodeInit.jumpMap j) <= 3)%nat.
Proof.
  unfold field. repeat split.
  - destruct (CodeInit.destMap !! d) eqn:H; simpl; [|lia].
    by rewrite (destMap_entry _ _ H).
  - destruct (CodeInit.compMap !! c) eqn:H; simpl; [|lia].
    destruct (compMap_entry _ _ H) as (_ & -> & _). lia.
  - destruct (CodeInit.jumpMap !! j) eqn:H; simpl; [|lia].
    by rewrite (jumpMap_entry _ _ H).
Qed.

Lemma field_absent m k : m !! k = None -> String.length (field m k) = O.
Proof. unfold field. by intros ->. Qed.

Lemma length_computation_line d c j :
  String.length (computation_line d c j)
  = (4 + String.length (field CodeInit.compMap c)
     + String.length (field CodeInit.destMap d)
     + String.length (field CodeInit.jumpMap j))%nat.
Proof.
  unfold computation_line.
  change ("111" +:+ String ?b ?r +:+ ?x)
    with (String "1" (String "1" (String "1" (String b (r +:+ x))))).
  cbn [String.length]. rewrite !StrFacts.length_app. lia.
Qed.

(** On a source file within the sizes of [source_fits] the run ends
    normally, with exit code 0 and one output line per address or
    computation instruction. *)
Lemma main_ok file :
  source_fits file ->
  ∃ out, main file = Ok (0, out) ∧ Z.of_nat (length out) = instructions file.
Proof.
  intros [Hlen Hfit].
  destruct (pass1_run _ SymbolTable_new 0 Hfit) as (t1 & Hrun1 & _); [lia..|].
  destruct (pass2_run _ t1 16 Hfit) as (t2 & Hrun2 & _); [lia..|].
  destruct (pass3_run file (mkEmit t2 Code_new []) Hfit code_ok_new)
    as (st3 & out & Hrun3 & _ & Hout & Hcount).
  exists out. split; [|done].
  unfold main, resolve, pass1, pass2, pass3.
  rewrite Hrun1. cbn [mbind result_bind]. rewrite Hrun2.
  cbn [mbind result_bind]. rewrite Hrun3. cbn [mbind result_bind].
  by rewrite Hout.
Qed.
(** * Label and variable resolution *)

Ltac solve_source_fits :=
  split; [by vm_compute | repeat constructor; by vm_compute].

(** C1.  For every source file (within the sizes of [source_fits]) the
    first loop ends normally with the program counter, started at 0,
    equal to the number of address and computation instructions.  Its
    body leaves an ignored line alone, enters a label at the current
    counter only when the name is absent and does not advance the
    counter for it, and advances the counter by one on every other line.
    Hence a name that the table already holds keeps its address, and a
    label gets, from its first declaration, the number of address and
    computation instructions before that declaration; later
    declarations do not change it, and neither does the second loop. *)
Theorem label_addresses file :
  source_fits file ->
  ∃ (t1 : gmap string Z) (t2 : gmap string Z),
    pass1 file = Ok (t1, instructions file)
    ∧ resolve file = Ok t2
    ∧ (∀ st raw, view raw = Ok Ignored -> pass1_body st raw = Ok st)
    ∧ (∀ (t : gmap string Z) a raw s,
         view raw = Ok (Label s) ->
         pass1_body (t, a) raw
         = Ok (if contains t s then t else <[s := a]> t, a))
    ∧ (∀ (t : gmap string Z) a raw,
         is_instruction raw = true ->
         pass1_body (t, a) raw = Ok (t, to_int (a + 1)))
    ∧ (∀ s v, SymbolTable_new !! s = Some v ->
              t1 !! s = Some v ∧ t2 !! s = Some v)
    ∧ (∀ pre raw post s,
         file = pre ++ raw :: post ->
         view raw = Ok (Label s) ->
         SymbolTable_new !! s = None ->
         (∀ r, r ∈ pre -> view r ≠ Ok (Label s)) ->
         t1 !! s = Some (instructions pre)
         ∧ t2 !! s = Some (instructions pre)).
Proof.
  intros [Hlen Hfit].
  destruct (pass1_run file SymbolTable_new 0 Hfit)
    as (t1 & Hrun1 & Hkeep1 & _ & Hfirst1); [lia..|].
  destruct (pass2_run file t1 16 Hfit)
    as (t2 & Hrun2 & Hkeep2 & _); [lia..|].
  exists t1, t2. rewrite Z.add_0_l in Hrun1.
  assert (pass1 file = Ok (t1, instructions file)) as Hpass1 by done.
  assert (resolve file = Ok t2) as Hres.
  { unfold resolve. rewrite Hpass1. simpl. unfold pass2. by rewrite Hrun2. }
  repeat split; try done.
  - intros st raw Hv. by rewrite (pass1_body_view _ _ _ Hv).
  - intros t a raw s Hv. by rewrite (pass1_body_view _ _ _ Hv).
  - intros t a raw Hi. unfold is_instruction in Hi.
    destruct (view raw) as [v| |] eqn:Hv; [|done..].
    rewrite (pass1_body_view _ _ _ Hv). by destruct v.
  - eauto.
  - eauto.
  - by eapply Hfirst1.
  - eapply Hkeep2. by eapply Hfirst1.
Qed.

(** C2.  For every source file (within the sizes of [source_fits]) the
    second loop ends normally; the symbol of an address instruction that
    the table does not hold and that is not made of digits only is
    bound, where it first occurs, to 16 plus the number of distinct such
    symbols before it: 16 for the first, 17 for the second distinct one,
    and so on.  The final variable counter is 16 plus the number of
    distinct such symbols, so that a symbol that occurs again does not
    advance it, and no entry of the table is ever changed. *)
Theorem variable_addresses file :
  source_fits file ->
  ∃ (t1 : gmap string Z) a1 (t2 : gmap string Z),
    pass1 file = Ok (t1, a1)
    ∧ pass2 t1 file
      = Ok (t2, 16 + Z.of_nat (size (variables t1 (address_symbols file))))
    ∧ resolve file = Ok t2
    ∧ (∀ s x, t1 !! s = Some x -> t2 !! s = Some x)
    ∧ (∀ pre raw post s,
         file = pre ++ raw :: post ->
         view raw = Ok (Address s) ->
         is_variable t1 s ->
         s ∉ address_symbols pre ->
         t2 !! s
         = Some (16 + Z.of_nat (size (variables t1 (address_symbols pre))))).
Proof.
  intros [Hlen Hfit].
  destruct (pass1_run file SymbolTable_new 0 Hfit)
    as (t1 & Hrun1 & _); [lia..|].
  destruct (pass2_run file t1 16 Hfit)
    as (t2 & Hrun2 & Hkeep2 & _ & Hfirst2 & _); [lia..|].
  exists t1, (0 + instructions file), t2.
  assert (pass1 file = Ok (t1, 0 + instructions file)) as Hpass1 by done.
  repeat split; try done.
  unfold resolve. rewrite Hpass1. simpl. unfold pass2. by rewrite Hrun2.
Qed.

(** Label resolution on the file [example_labels]. *)
Lemma label_addresses_witness :
  ∃ (t1 : gmap string Z) (t2 : gmap string Z),
    pass1 example_labels = Ok (t1, instructions example_labels)
    ∧ resolve example_labels = Ok t2
    ∧ (∀ st raw, view raw = Ok Ignored -> pass1_body st raw = Ok st)
    ∧ (∀ (t : gmap string Z) a raw s,
         view raw = Ok (Label s) ->
         pass1_body (t, a) raw
         = Ok (if contains t s then t else <[s := a]> t, a))
    ∧ (∀ (t : gmap string Z) a raw,
         is_instruction raw = true ->
         pass1_body (t, a) raw = Ok (t, to_int (a + 1)))
    ∧ (∀ s v, SymbolTable_new !! s = Some v ->
              t1 !! s = Some v ∧ t2 !! s = Some v)
    ∧ (∀ pre raw post s,
         example_labels = pre ++ raw :: post ->
         view raw = Ok (Label s) ->
         SymbolTable_new !! s = None ->
         (∀ r, r ∈ pre -> view r ≠ Ok (Label s)) ->
         t1 !! s = Some (instructions pre)
         ∧ t2 !! s = Some (instructions pre)).
Proof. apply (label_addresses example_labels). solve_source_fits. Defined.

(** Variable resolution on the file [example_labels]. *)
Lemma variable_addresses_witness :
  ∃ (t1 : gmap string Z) a1 (t2 : gmap string Z),
    pass1 example_labels = Ok (t1, a1)
    ∧ pass2 t1 example_labels
      = Ok (t2, 16 + Z.of_nat
                       (size (variables t1 (address_symbols example_labels))))
    ∧ resolve example_labels = Ok t2
    ∧ (∀ s x, t1 !! s = Some x -> t2 !! s = Some x)
    ∧ (∀ pre raw post s,
         example_labels = pre ++ raw :: post ->
         view raw = Ok (Address s) ->
         is_variable t1 s ->
         s ∉ address_symbols pre ->
         t2 !! s
         = Some (16 + Z.of_nat (size (variables t1 (address_symbols pre))))).
Proof. apply (variable_addresses example_labels). solve_source_fits. Defined.

Example example_labels_resolved :
  (t ← resolve example_labels;
   Ok (t !! "LOOP", t !! "END", t !! "SP", t !! "i", t !! "sum", t !! "7"))
  = Ok (Some 1, Some 6, Some 0, Some 16, Some 17, Some 7).
Proof. by vm_compute. Qed.
(** * Decimal literals in address instructions *)

(** C7.  Let [s], made of digits only, be the symbol of an address
    instruction of a source file (within the sizes of [source_fits]).
    The address that [stonum] computes for [s] is 0 when [s] has more
    than 5 characters or its decimal value exceeds 32767, and the
    decimal value of [s] otherwise; it lies in 0..32767.  The second
    loop binds [s] to that address when it meets [s] absent from the
    table, and the run resolves [s] to it; only a label line declaring
    [s] itself, which pass 1 enters first, stands in the way. *)
Theorem literal_addresses file raw s :
  source_fits file ->
  raw ∈ file ->
  view raw = Ok (Address s) ->
  AllisNum s = true ->
  stonum s
  = (if (5 <? Str.size s) || (32767 <? decimal_value s) then 0
     else decimal_value s)
  ∧ 0 <= stonum s <= 32767
  ∧ (∀ (t : gmap string Z) a,
       t !! s = None -> pass2_body (t, a) raw = Ok (<[s := stonum s]> t, a))
  ∧ ∃ (t1 : gmap string Z) a1 (t2 : gmap string Z),
      pass1 file = Ok (t1, a1)
      ∧ resolve file = Ok t2
      ∧ ((∀ r, r ∈ file -> view r ≠ Ok (Label s)) -> t1 !! s = None)
      ∧ (t1 !! s = None -> t2 !! s = Some (stonum s)).
Proof.
  intros [Hlen Hfit] Hin Hv Hnum.
  assert (line_fits s) as Hs.
  { rewrite Forall_forall in Hfit.
    eapply view_symbol_fits; [by apply Hfit|by right]. }
  split; [by apply stonum_spec|]. split; [by apply stonum_range|]. split.
  { intros t a Ht. rewrite (pass2_body_view _ _ _ Hv). simpl.
    by rewrite (contains_false _ _ Ht), Hnum. }
  destruct (pass1_run file SymbolTable_new 0 Hfit)
    as (t1 & Hrun1 & _ & Hnone1 & _); [lia..|].
  destruct (pass2_run file t1 16 Hfit)
    as (t2 & Hrun2 & _ & _ & _ & Hnum2); [lia..|].
  exists t1, (0 + instructions file), t2.
  assert (pass1 file = Ok (t1, 0 + instructions file)) as Hpass1 by done.
  repeat split; try done.
  - unfold resolve. rewrite Hpass1. simpl. unfold pass2. by rewrite Hrun2.
  - intros Hno. apply Hnone1; [|done]. by apply predefined_not_digits.
  - intros Ht1. apply Hnum2; [done..|]. by eapply elem_of_address_symbols.
Qed.

(** The literal 40000 of the file [example_literals]. *)
Lemma literal_addresses_witness :
  stonum "40000"
  = (if (5 <? Str.size "40000") || (32767 <? decimal_value "40000") then 0
     else decimal_value "40000")
  ∧ 0 <= stonum "40000" <= 32767
  ∧ (∀ (t : gmap string Z) a,
       t !! "40000" = None ->
       pass2_body (t, a) "@40000" = Ok (<["40000" := stonum "40000"]> t, a))
  ∧ ∃ (t1 : gmap string Z) a1 (t2 : gmap string Z),
      pass1 example_literals = Ok (t1, a1)
      ∧ resolve example_literals = Ok t2
      ∧ ((∀ r, r ∈ example_literals -> view r ≠ Ok (Label "40000")) ->
         t1 !! "40000" = None)
      ∧ (t1 !! "40000" = None -> t2 !! "40000" = Some (stonum "40000")).
Proof.
  apply (literal_addresses example_literals "@40000" "40000").
  - solve_source_fits.
  - do 2 right. left.
  - by vm_compute.
  - reflexivity.
Defined.

Example example_literals_resolved :
  (t ← resolve example_literals;
   Ok (t !! "123456", t !! "40000", t !! "32767", t !! "007"))
  = Ok (Some 0, Some 0, Some 32767, Some 7).
Proof. by vm_compute. Qed.

(** * Comment lines *)

(** C10.  A line (of at most [INT_MAX] characters) in which "//" occurs
    anywhere is skipped whole by each of the three loops: their bodies
    return the state they were given, so the line does not advance the
    program counter, enters no label and no variable, and writes no
    output line; the passes and the whole run give what they give on
    the file without that line. *)
Theorem comment_lines_skipped pre raw post :
  line_fits raw ->
  occurs_in "//" raw ->
  (∀ st, pass1_body st raw = Ok st)
  ∧ (∀ st, pass2_body st raw = Ok st)
  ∧ (∀ st, pass3_body st raw = Ok st)
  ∧ is_instruction raw = false
  ∧ pass1 (pre ++ raw :: post) = pass1 (pre ++ post)
  ∧ (∀ t, pass2 t (pre ++ raw :: post) = pass2 t (pre ++ post))
  ∧ (∀ t, pass3 t (pre ++ raw :: post) = pass3 t (pre ++ post))
  ∧ main (pre ++ raw :: post) = main (pre ++ post).
Proof.
  intros Hfit Hocc. pose proof (view_comment raw Hfit Hocc) as Hv.
  assert (∀ st, pass1_body st raw = Ok st) as H1
    by (intros st; by rewrite (pass1_body_view _ _ _ Hv)).
  assert (∀ st, pass2_body st raw = Ok st) as H2
    by (intros [t a]; by rewrite (pass2_body_view _ _ _ Hv)).
  assert (∀ st, pass3_body st raw = Ok st) as H3
    by (intros st; by rewrite (pass3_body_view _ _ _ Hv)).
  assert (pass1 (pre ++ raw :: post) = pass1 (pre ++ post)) as Hp1
    by (by apply while_lines_skip).
  assert (∀ t, pass2 t (pre ++ raw :: post) = pass2 t (pre ++ post)) as Hp2
    by (intros t; by apply while_lines_skip).
  assert (∀ t, pass3 t (pre ++ raw :: post) = pass3 t (pre ++ post)) as Hp3
    by (intros t; by apply while_lines_skip).
  repeat split; try done.
  - unfold is_instruction. by rewrite Hv.
  - unfold main, resolve. rewrite Hp1.
    destruct (pass1 (pre ++ post)) as [[t1 a1]| |]; simpl; [|done..].
    rewrite Hp2.
    destruct (pass2 t1 (pre ++ post)) as [[t2 a2]| |]; simpl; [|done..].
    by rewrite Hp3.
Qed.

(** An instruction followed by a comment. *)
Lemma comment_lines_skipped_witness :
  (∀ st, pass1_body st "D=A // note" = Ok st)
  ∧ (∀ st, pass2_body st "D=A // note" = Ok st)
  ∧ (∀ st, pass3_body st "D=A // note" = Ok st)
  ∧ is_instruction "D=A // note" = false
  ∧ pass1 (["@x"] ++ "D=A // note" :: ["(X)"; "@X"])
    = pass1 (["@x"] ++ ["(X)"; "@X"])
  ∧ (∀ t, pass2 t (["@x"] ++ "D=A // note" :: ["(X)"; "@X"])
          = pass2 t (["@x"] ++ ["(X)"; "@X"]))
  ∧ (∀ t, pass3 t (["@x"] ++ "D=A // note" :: ["(X)"; "@X"])
          = pass3 t (["@x"] ++ ["(X)"; "@X"]))
  ∧ main (["@x"] ++ "D=A // note" :: ["(X)"; "@X"])
    = main (["@x"] ++ ["(X)"; "@X"]).
Proof.
  apply (comment_lines_skipped ["@x"] "D=A // note" ["(X)"; "@X"]).
  - by vm_compute.
  - by exists "D=A ", " note".
Defined.

Example comment_after_instruction :
  main ["@2"; "D=A // note"; "(L) // here"; "@L"]
  = Ok (0, ["0000000000000010"; "0000000000010000"]).
Proof. by vm_compute. Qed.
(** * Address instructions *)

(** C4.  For every address [a] in 0..32767 the line written for an
    address instruction has 16 characters, all '0' or '1'; the first
    is '0' and the other 15 are the unsigned binary representation of
    [a], most significant bit first: the bit of weight [2 ^ i] stands at
    offset [15 - i], and read back as an unsigned binary number they
    give [a]. *)
Theorem encodeAddress_roundtrip a :
  0 <= a <= 32767 ->
  ∃ bits : string,
    encodeAddress a = String "0" bits
    ∧ String.length (encodeAddress a) = 16%nat
    ∧ is_binary (encodeAddress a) = true
    ∧ (∀ i, 0 <= i < 15 ->
            String.get (Z.to_nat (15 - i)) (encodeAddress a)
            = Some (bit_char (Z.testbit a i)))
    ∧ binary_value (Str.drop 1 (encodeAddress a)) = a.
Proof.
  intros Ha. exists (address_bits 15 0 a "").
  assert (encodeAddress a = String "0" (address_bits 15 0 a "")) as ->
    by done.
  repeat split.
  - cbn [String.length]. by rewrite length_address_bits.
  - cbn [is_binary]. by rewrite is_binary_address_bits.
  - intros i Hi.
    replace (Z.to_nat (15 - i)) with (S (15 - 1 - Z.to_nat i)) by lia.
    cbn [String.get]. rewrite get_address_bits by lia.
    do 3 f_equal. lia.
  - cbn [Str.drop]. rewrite binary_value_address_bits by lia.
    rewrite Z.shiftr_0_r. apply Z.mod_small. simpl. lia.
Qed.

(** The address of the keyboard. *)
Lemma encodeAddress_roundtrip_witness :
  ∃ bits : string,
    encodeAddress 24576 = String "0" bits
    ∧ String.length (encodeAddress 24576) = 16%nat
    ∧ is_binary (encodeAddress 24576) = true
    ∧ (∀ i, 0 <= i < 15 ->
            String.get (Z.to_nat (15 - i)) (encodeAddress 24576)
            = Some (bit_char (Z.testbit 24576 i)))
    ∧ binary_value (Str.drop 1 (encodeAddress 24576)) = 24576.
Proof. apply (encodeAddress_roundtrip 24576). lia. Defined.

Example encodeAddress_KBD : encodeAddress 24576 = "0110000000000000".
Proof. reflexivity. Qed.

(** The line of an address instruction in the third loop is
    [encodeAddress] of the address that the table holds for its symbol. *)
Lemma pass3_body_address st raw s a :
  view raw = Ok (Address s) ->
  emit_symbols st !! s = Some a ->
  pass3_body st raw
  = Ok (mkEmit (emit_symbols st) (emit_code st)
          (emit_out st ++ [encodeAddress a])).
Proof.
  intros Hv Hs. rewrite (pass3_body_view _ _ _ Hv). simpl.
  unfold getAddress, subscript. by rewrite Hs.
Qed.
(** * The encoder tables *)

(** C5.  For every valid computation mnemonic [c], with opcode [v] in
    the computation table: whatever the tables hold when [Code::comp]
    is called, the first character of its result is '1' when 'M' occurs
    in [c] and '0' otherwise, as the scan of [c] says, and the rest is
    the entry of the table; on the tables of the constructor the result
    has 7 characters, that bit and the 6 of [v]; and the table holds the
    same opcode [v] for the register form of [c], as "D+A" for "D+M". *)
Theorem comp_source_select c v :
  CodeInit.compMap !! c = Some v ->
  (∀ code : Code,
     (Code_comp c code).1
     = String (bit_char (has_char "M" c)) (field (compMap code) c))
  ∧ (Code_comp c Code_new).1 = String (bit_char (has_char "M" c)) v
  ∧ String.length (Code_comp c Code_new).1 = 7%nat
  ∧ String.length v = 6%nat
  ∧ CodeInit.compMap !! register_form c = Some v.
Proof.
  intros Hc. destruct (compMap_entry c v Hc) as (Hfit & Hlen & Hreg).
  assert ((Code_comp c Code_new).1 = String (bit_char (has_char "M" c)) v)
    as Hnew.
  { rewrite Code_comp_value by done. unfold field.
    change (compMap Code_new) with CodeInit.compMap. by rewrite Hc. }
  repeat split; try done.
  - intros code. by apply Code_comp_value.
  - rewrite Hnew. simpl. by rewrite Hlen.
Qed.

(** The mnemonic D+M. *)
Lemma comp_source_select_witness :
  (∀ code : Code,
     (Code_comp "D+M" code).1
     = String (bit_char (has_char "M" "D+M")) (field (compMap code) "D+M"))
  ∧ (Code_comp "D+M" Code_new).1
    = String (bit_char (has_char "M" "D+M")) "000010"
  ∧ String.length (Code_comp "D+M" Code_new).1 = 7%nat
  ∧ String.length "000010" = 6%nat
  ∧ CodeInit.compMap !! register_form "D+M" = Some "000010".
Proof. apply (comp_source_select "D+M" "000010"). reflexivity. Defined.

Example comp_memory_register :
  (Code_comp "D+M" Code_new).1 = "1000010"
  ∧ (Code_comp "D+A" Code_new).1 = "0000010".
Proof. by vm_compute. Qed.

(** C3.  Every mnemonic of the computation and jump tables of the
    specification is in the table of the implementation with the code
    listed, and so is every destination mnemonic but "AMD": the
    destination table holds "ADM" and not "AMD", [Code::dest] returns
    the empty string for it, and the line written for "AMD=M+1" has 13
    characters. *)
Theorem dest_AMD_missing :
  Forall (λ kv, CodeInit.compMap !! kv.1 = Some kv.2) SpecTables.comp
  ∧ Forall (λ kv, CodeInit.jumpMap !! kv.1 = Some kv.2) SpecTables.jump
  ∧ Forall (λ kv, CodeInit.destMap !! kv.1 = Some kv.2)
      (filter (λ kv, kv.1 ≠ "AMD") SpecTables.dest)
  ∧ CodeInit.destMap !! "AMD" = None
  ∧ CodeInit.destMap !! "ADM" = Some "111"
  ∧ (Code_dest "AMD" Code_new).1 = ""
  ∧ main ["AMD=M+1"] = Ok (0, ["1111110111000"]).
Proof. table_facts. Qed.

(** C8.  The two orderings "MD" and "DM" have the same code "011".  The
    destination table holds no other second ordering: "MA" and "DA" are
    absent, and of the six orderings of the three registers "ADM" alone
    is present; [Code::dest] returns the empty string for the others,
    and the line written for "MA=D" has 13 characters. *)
Theorem dest_orderings_missing :
  (Code_dest "MD" Code_new).1 = "011"
  ∧ (Code_dest "DM" Code_new).1 = "011"
  ∧ (Code_dest "AM" Code_new).1 = "101"
  ∧ (Code_dest "MA" Code_new).1 = ""
  ∧ (Code_dest "AD" Code_new).1 = "110"
  ∧ (Code_dest "DA" Code_new).1 = ""
  ∧ (Code_dest "ADM" Code_new).1 = "111"
  ∧ Forall (λ d, (Code_dest d Code_new).1 = "")
      ["AMD"; "DAM"; "DMA"; "MAD"; "MDA"]
  ∧ main ["AM=D"] = Ok (0, ["1110001100101000"])
  ∧ main ["MA=D"] = Ok (0, ["1110001100000"]).
Proof. table_facts. Qed.
(** * Unknown mnemonics and whitespace *)

(** C6, as the specification states it, fails: for a computation
    instruction with a field absent from its table the run does not
    fail; it returns normally and has written a line for that
    instruction. *)
Lemma unknown_mnemonic_not_rejected :
  main ["D=X"] = Ok (0, ["1110010000"])
  ∧ ¬ (∀ file raw d c j,
         raw ∈ file ->
         view raw = Ok (Computation d c j) ->
         CodeInit.destMap !! d = None ∨ CodeInit.compMap !! c = None
         ∨ CodeInit.jumpMap !! j = None ->
         ∃ e, main file = Throw e).
Proof.
  split; [by vm_compute|]. intros Hclaim.
  destruct (Hclaim ["D=X"] "D=X" "D" "X" "null") as [e He].
  - left.
  - by vm_compute.
  - right. left. by vm_compute.
  - by vm_compute in He.
Qed.

(** C6, amended.  For every computation instruction with a field absent
    from its table (in a source file within the sizes of
    [source_fits]) the run does not fail: it ends with exit code 0, and
    the line written for that instruction, after one line for each
    address or computation instruction before it, is "111", the
    source-select bit and the entries of the tables for its fields,
    the empty string standing for an absent entry; that line has fewer
    than 16 characters. *)
Theorem unknown_mnemonic_line pre raw post d c j :
  source_fits (pre ++ raw :: post) ->
  view raw = Ok (Computation d c j) ->
  CodeInit.destMap !! d = None ∨ CodeInit.compMap !! c = None
  ∨ CodeInit.jumpMap !! j = None ->
  ∃ out1 out2,
    main (pre ++ raw :: post)
    = Ok (0, out1 ++ computation_line d c j :: out2)
    ∧ Z.of_nat (length out1) = instructions pre
    ∧ (String.length (computation_line d c j) < 16)%nat.
Proof.
  intros [Hlen Hfit] Hv Habs.
  destruct (pass1_run _ SymbolTable_new 0 Hfit) as (t1 & Hrun1 & _); [lia..|].
  destruct (pass2_run _ t1 16 Hfit) as (t2 & Hrun2 & _); [lia..|].
  apply Forall_app in Hfit as [Hpre Hfit].
  apply Forall_cons in Hfit as [Hraw Hpost].
  destruct (pass3_run pre (mkEmit t2 Code_new []) Hpre code_ok_new)
    as (st1 & out1 & Hrun3 & Hok1 & Hout1 & Hlen1).
  destruct (pass3_step_spec st1 raw _ Hraw Hv Hok1) as [Hok2 Hout2].
  destruct (pass3_run post (pass3_step st1 (Computation d c j)) Hpost Hok2)
    as (st3 & out2 & Hrun4 & _ & Hout3 & _).
  exists out1, out2. split; [|split; [done|]].
  - unfold main, resolve, pass1, pass2, pass3.
    rewrite Hrun1. cbn [mbind result_bind]. rewrite Hrun2.
    cbn [mbind result_bind]. rewrite while_lines_app, Hrun3.
    cbn [mbind result_bind].
    rewrite (while_lines_cons _ _ (pass3_step st1 (Computation d c j)))
      by (by apply pass3_body_view).
    rewrite Hrun4. cbn [mbind result_bind].
    rewrite Hout3, Hout2, Hout1. simpl. by rewrite <- app_assoc.
  - rewrite length_computation_line.
    destruct (field_length d c j) as (Hd & Hc & Hj).
    destruct Habs as [Ha|[Ha|Ha]]; rewrite (field_absent _ _ Ha); lia.
Qed.

(** A file whose third line has the unknown computation X. *)
Lemma unknown_mnemonic_line_witness :
  ∃ out1 out2,
    main (["@1"; "(L)"] ++ "D=X" :: ["@2"])
    = Ok (0, out1 ++ computation_line "D" "X" "null" :: out2)
    ∧ Z.of_nat (length out1) = instructions ["@1"; "(L)"]
    ∧ (String.length (computation_line "D" "X" "null") < 16)%nat.
Proof.
  apply (unknown_mnemonic_line ["@1"; "(L)"] "D=X" ["@2"] "D" "X" "null").
  - solve_source_fits.
  - by vm_compute.
  - right. left. by vm_compute.
Defined.

(** C9.  [trim] takes out the space characters and no other: it
    returns a line with tabs as it is, and the computation line written
    with tabs between its fields does not encode as the same line
    without whitespace does, while the line written with spaces
    does. *)
Theorem trim_keeps_tabs :
  trim (String "D" (String tab (String "=" (String tab "A"))))
  = Ok (String "D" (String tab (String "=" (String tab "A"))))
  ∧ trim " D = A " = Ok "D=A"
  ∧ main [String "D" (String tab (String "=" (String tab "A")))]
    = Ok (0, ["1110000"])
  ∧ main [" D = A "] = Ok (0, ["1110110000010000"])
  ∧ main ["D=A"] = Ok (0, ["1110110000010000"]).
Proof. split_and!; vm_compute; reflexivity. Qed.
(** * More on the parser *)

Lemma has_char_cons ch a s :
  has_char ch (String a s) = Ascii.eqb a ch || has_char ch s.
Proof.
  unfold has_char. cbn [list_ascii_of_string].
  destruct (Ascii.eqb_spec a ch) as [->|Hne]; simpl.
  - apply bool_decide_eq_true. left.
  - apply bool_decide_ext. rewrite elem_of_cons.
    split; [intros [?|?]; [congruence|done] | by right].
Qed.

Lemma has_char_app ch s t :
  has_char ch (s +:+ t) = has_char ch s || has_char ch t.
Proof.
  induction s as [|a s IH]; [done|].
  change (String a s +:+ t) with (String a (s +:+ t)).
  by rewrite !has_char_cons, IH, orb_assoc.
Qed.

Lemma index_of_app_first ch a b :
  has_char ch a = false ->
  Str.index_of ch (a +:+ String ch b) = Some (String.length a).
Proof.
  induction a as [|x a IH]; intros Ha; simpl.
  - by rewrite Ascii.eqb_refl.
  - rewrite has_char_cons in Ha. apply orb_false_iff in Ha as [-> Ha].
    by rewrite IH.
Qed.

(** [find] returns the place of the first occurrence. *)
Lemma find_first s ch a b :
  s = a +:+ String ch b -> has_char ch a = false ->
  Str.find s ch 0 = Str.size a.
Proof.
  intros -> Ha. by rewrite StrFacts.find_0, index_of_app_first.
Qed.

Lemma find_absent s ch : has_char ch s = false -> Str.find s ch 0 = npos.
Proof.
  intros Hs. apply index_of_has_char in Hs.
  by rewrite StrFacts.find_0, Hs.
Qed.

Lemma drop_app_size a b : Str.drop (Z.to_nat (Str.size a)) (a +:+ b) = b.
Proof. unfold Str.size. by rewrite Nat2Z.id, StrFacts.drop_app_length. Qed.

(** [substr] from the end of a prefix [a]: as much of the rest as [len]
    allows. *)
Lemma substr_app a b len :
  0 <= len ->
  Str.substr (a +:+ b) (Str.size a) len
  = Ok (Str.take (Z.to_nat len) b).
Proof.
  intros Hlen. pose proof (StrFacts.size_nonneg a).
  pose proof (StrFacts.size_nonneg b).
  rewrite StrFacts.substr_ok by (rewrite StrFacts.size_app; lia).
  rewrite drop_app_size, StrFacts.size_app. f_equal.
  destruct (Z.le_ge_cases len (Str.size b)).
  - by rewrite Z.min_l by lia.
  - rewrite Z.min_r by lia.
    rewrite !StrFacts.take_all; [done|unfold Str.size in *; lia..].
Qed.

Lemma substr_prefix s len :
  0 <= len -> Str.substr s 0 len = Ok (Str.take (Z.to_nat len) s).
Proof. apply (substr_app "" s len). Qed.

Lemma substr_app_rest a b :
  Str.size b <= npos -> Str.substr (a +:+ b) (Str.size a) npos = Ok b.
Proof.
  intros Hb. rewrite substr_app by done.
  rewrite StrFacts.take_all; [done|]. unfold Str.size in *. lia.
Qed.

Lemma substr_app_mid a b c :
  Str.substr (a +:+ b +:+ c) (Str.size a) (Str.size b) = Ok b.
Proof.
  rewrite substr_app by apply StrFacts.size_nonneg.
  unfold Str.size. by rewrite Nat2Z.id, StrFacts.take_app_length.
Qed.

Lemma size_cons x s : Str.size (String x s) = 1 + Str.size s.
Proof. unfold Str.size. simpl. lia. Qed.

Lemma eq_minus1_size s a :
  line_fits s -> 0 <= a <= Str.size s -> eq_minus1 a = false.
Proof.
  unfold line_fits, eq_minus1, INT_MAX, npos. intros ??.
  apply Z.eqb_neq. lia.
Qed.

Lemma line_fits_size s : line_fits s -> 0 <= Str.size s < 2 ^ 31.
Proof.
  unfold line_fits, INT_MAX. pose proof (StrFacts.size_nonneg s). lia.
Qed.

(** ** The fields of a computation line *)

Lemma dest_with line d rest :
  line = d +:+ String "=" rest -> has_char "=" d = false -> line_fits line ->
  dest line = Ok d.
Proof.
  intros Hline Hd Hfit. unfold dest.
  rewrite (find_first line "=" d rest) by done.
  apply line_fits_size in Hfit as Hsz. pose proof (StrFacts.size_nonneg d).
  pose proof (StrFacts.size_nonneg (String "=" rest)).
  rewrite (eq_minus1_size line)
    by (done || (rewrite Hline, StrFacts.size_app; lia)).
  rewrite Hline. rewrite substr_prefix by done.
  unfold Str.size. by rewrite Nat2Z.id, StrFacts.take_app_length.
Qed.

Lemma dest_without line : has_char "=" line = false -> dest line = Ok "null".
Proof. intros H. unfold dest. by rewrite find_absent. Qed.

Lemma jump_with line a j :
  line = a +:+ String ";" j -> has_char ";" a = false -> line_fits line ->
  jump line = Ok j.
Proof.
  intros Hline Ha Hfit. unfold jump.
  rewrite (find_first line ";" a j) by done.
  apply line_fits_size in Hfit as Hsz. pose proof (StrFacts.size_nonneg a).
  pose proof (StrFacts.size_nonneg j).
  assert (Str.size line = Str.size a + (1 + Str.size j)) as Hsize
    by (by rewrite Hline, StrFacts.size_app, size_cons).
  rewrite (eq_minus1_size line) by (done || lia).
  rewrite to_size_t_small by lia.
  replace line with ((a +:+ ";") +:+ j)
    by (by rewrite Hline, StrFacts.app_assoc).
  replace (Str.size a + 1) with (Str.size (a +:+ ";"))
    by (rewrite StrFacts.size_app, size_cons; done).
  apply substr_app_rest. unfold npos. lia.
Qed.

Lemma jump_without line : has_char ";" line = false -> jump line = Ok "null".
Proof. intros H. unfold jump. by rewrite find_absent. Qed.

Lemma comp_alone line :
  has_char "=" line = false -> has_char ";" line = false ->
  comp line = Ok line.
Proof. intros H1 H2. unfold comp. by rewrite !find_absent. Qed.

Lemma comp_before_jump line c j :
  line = c +:+ String ";" j -> has_char "=" line = false ->
  has_char ";" c = false -> line_fits line ->
  comp line = Ok c.
Proof.
  intros Hline Heq Hc Hfit. unfold comp.
  rewrite (find_absent line "=") by done.
  rewrite (find_first line ";" c j) by done.
  apply line_fits_size in Hfit as Hsz. pose proof (StrFacts.size_nonneg c).
  pose proof (StrFacts.size_nonneg (String ";" j)).
  change (eq_minus1 npos) with true. cbv iota.
  rewrite (eq_minus1_size line)
    by (done || (rewrite Hline, StrFacts.size_app; lia)).
  rewrite Hline. rewrite substr_prefix by done.
  unfold Str.size. by rewrite Nat2Z.id, StrFacts.take_app_length.
Qed.

Lemma comp_after_dest line d c :
  line = d +:+ String "=" c -> has_char "=" d = false ->
  has_char ";" line = false -> line_fits line ->
  comp line = Ok c.
Proof.
  intros Hline Hd Hsc Hfit. unfold comp.
  rewrite (find_first line "=" d c) by done.
  rewrite (find_absent line ";") by done.
  apply line_fits_size in Hfit as Hsz. pose proof (StrFacts.size_nonneg d).
  pose proof (StrFacts.size_nonneg c).
  assert (Str.size line = Str.size d + (1 + Str.size c)) as Hsize
    by (by rewrite Hline, StrFacts.size_app, size_cons).
  rewrite (eq_minus1_size line) by (done || lia).
  change (eq_minus1 npos) with true. cbv iota.
  rewrite to_size_t_small by lia.
  replace line with ((d +:+ "=") +:+ c)
    by (by rewrite Hline, StrFacts.app_assoc).
  replace (Str.size d + 1) with (Str.size (d +:+ "="))
    by (rewrite StrFacts.size_app, size_cons; done).
  apply substr_app_rest. unfold npos. lia.
Qed.

Lemma comp_between line d c j :
  line = d +:+ String "=" (c +:+ String ";" j) ->
  has_char "=" d = false -> has_char ";" d = false ->
  has_char ";" c = false -> line_fits line ->
  comp line = Ok c.
Proof.
  intros Hline Hd Hd' Hc Hfit. unfold comp.
  rewrite (find_first line "=" d (c +:+ String ";" j)) by done.
  rewrite (find_first line ";" (d +:+ String "=" c) j).
  2: { by rewrite Hline, StrFacts.app_assoc. }
  2: { rewrite has_char_app, has_char_cons, Hd', Hc. done. }
  apply line_fits_size in Hfit as Hsz. pose proof (StrFacts.size_nonneg d).
  pose proof (StrFacts.size_nonneg c). pose proof (StrFacts.size_nonneg j).
  assert (Str.size line = Str.size d + (1 + (Str.size c + (1 + Str.size j))))
    as Hsize
    by (by rewrite Hline, StrFacts.size_app, size_cons, StrFacts.size_app,
          size_cons).
  rewrite StrFacts.size_app, size_cons.
  rewrite !(eq_minus1_size line) by (done || lia).
  rewrite (to_size_t_small (Str.size d + 1)) by lia.
  replace (Str.size d + (1 + Str.size c) - Str.size d) with (1 + Str.size c)
    by lia.
  rewrite (to_size_t_small (1 + Str.size c)) by lia.
  replace (1 + Str.size c - 1) with (Str.size c) by lia.
  rewrite to_size_t_small by lia.
  replace line with ((d +:+ "=") +:+ c +:+ String ";" j)
    by (by rewrite Hline, StrFacts.app_assoc).
  replace (Str.size d + 1) with (Str.size (d +:+ "="))
    by (rewrite StrFacts.size_app, size_cons; done).
  apply substr_app_mid.
Qed.

(** ** What the parser extracts *)

(** X1.  [trim], on a line of at most [INT_MAX] characters, returns the
    characters of the line other than the space, in their order; what
    it returns holds no space, and [trim] leaves it as it is. *)
Theorem trim_filters_spaces s :
  line_fits s ->
  ∃ r, trim s = Ok r
       ∧ list_ascii_of_string r
         = filter (λ ch, ch ≠ " "%char) (list_ascii_of_string s)
       ∧ has_char " " r = false
       ∧ trim r = Ok r.
Proof.
  intros Hfit. exists (without_spaces s).
  assert (list_ascii_of_string (without_spaces s)
          = filter (λ ch, ch ≠ " "%char) (list_ascii_of_string s)) as Hfilter.
  { induction s as [|a s IH]; [done|]. simpl.
    assert (line_fits s) as Hs
      by (unfold line_fits, Str.size in *; simpl in Hfit; lia).
    destruct (Ascii.eqb_spec a " ") as [->|Hne].
    - rewrite filter_cons_False by (by intros []). by apply IH.
    - rewrite filter_cons_True by done. simpl. by rewrite IH. }
  assert (has_char " " (without_spaces s) = false) as Hnone.
  { unfold has_char. apply bool_decide_eq_false. rewrite Hfilter.
    rewrite list_elem_of_filter. by intros [[] _]. }
  split_and!; try done; try by apply trim_spec.
  rewrite trim_spec by by apply line_fits_without_spaces.
  f_equal. apply without_spaces_id. by apply index_of_has_char.
Qed.

(** A line with spaces before, inside and after. *)
Lemma trim_filters_spaces_witness :
  ∃ r, trim "  D = M ; JGT " = Ok r
       ∧ list_ascii_of_string r
         = filter (λ ch, ch ≠ " "%char)
             (list_ascii_of_string "  D = M ; JGT ")
       ∧ has_char " " r = false
       ∧ trim r = Ok r.
Proof. apply (trim_filters_spaces "  D = M ; JGT "). by vm_compute. Defined.

(** X2.  No call of [substr] in the parser is out of range: on every
    line whatever, [symbol], [dest], [comp] and [jump] return normally. *)
Theorem parser_never_throws line :
  ∃ s d c j,
    symbol line = Ok s ∧ dest line = Ok d ∧ comp line = Ok c
    ∧ jump line = Ok j.
Proof.
  destruct (symbol_ok line) as (s & Hs & _).
  destruct (dest_ok line) as (d & Hd).
  destruct (comp_ok line) as (c & Hc & _).
  destruct (jump_ok line) as (j & Hj).
  by exists s, d, c, j.
Qed.

(** X3.  The fields of a computation line come back: from
    [dest=]comp[;jump], where the destination holds no '=' and no ';',
    the computation no ';' and, when there is no destination, neither
    the computation nor the jump holds '=', the parser extracts
    [dest], [comp] and [jump], "null" standing for a field left out. *)
Theorem computation_fields d c j :
  line_fits (join_fields d c j) ->
  has_char ";" c = false ->
  match d with
  | Some d' => has_char "=" d' = false ∧ has_char ";" d' = false
  | None => has_char "=" c = false ∧ has_char "=" (default "" j) = false
  end ->
  dest (join_fields d c j) = Ok (default "null" d)
  ∧ comp (join_fields d c j) = Ok c
  ∧ jump (join_fields d c j) = Ok (default "null" j).
Proof.
  intros Hfit Hc Hd. unfold join_fields in *.
  destruct d as [d|], j as [j|]; simpl default in *; destruct Hd as [Hd1 Hd2].
  - assert ((d +:+ "=") +:+ c +:+ ";" +:+ j
            = d +:+ String "=" (c +:+ String ";" j)) as Hline
      by (by rewrite StrFacts.app_assoc).
    rewrite Hline in *. split_and!.
    + by eapply dest_with.
    + by eapply comp_between.
    + eapply (jump_with _ (d +:+ String "=" c)); [|  |done].
      * by rewrite StrFacts.app_assoc.
      * by rewrite has_char_app, has_char_cons, Hd2, Hc.
  - assert ((d +:+ "=") +:+ c +:+ "" = d +:+ String "=" c) as Hline
      by (by rewrite StrFacts.app_nil_r, StrFacts.app_assoc).
    rewrite Hline in *.
    assert (has_char ";" (d +:+ String "=" c) = false) as Hsc
      by (by rewrite has_char_app, has_char_cons, Hd2, Hc).
    split_and!.
    + by eapply dest_with.
    + by eapply comp_after_dest.
    + by apply jump_without.
  - assert ("" +:+ c +:+ ";" +:+ j = c +:+ String ";" j) as Hline by done.
    rewrite Hline in *.
    assert (has_char "=" (c +:+ String ";" j) = false) as Heq
      by (by rewrite has_char_app, has_char_cons, Hd1, Hd2).
    split_and!.
    + by apply dest_without.
    + by eapply comp_before_jump.
    + by eapply jump_with.
  - assert ("" +:+ c +:+ "" = c) as Hline by apply StrFacts.app_nil_r.
    rewrite Hline in *. split_and!.
    + by apply dest_without.
    + by apply comp_alone.
    + by apply jump_without.
Qed.

(** The line MD=D+1;JGE. *)
Lemma computation_fields_witness :
  dest (join_fields (Some "MD") "D+1" (Some "JGE")) = Ok "MD"
  ∧ comp (join_fields (Some "MD") "D+1" (Some "JGE")) = Ok "D+1"
  ∧ jump (join_fields (Some "MD") "D+1" (Some "JGE")) = Ok "JGE".
Proof.
  apply (computation_fields (Some "MD") "D+1" (Some "JGE")).
  - by vm_compute.
  - by vm_compute.
  - split; by vm_compute.
Defined.

(** X4.  A line in which '@' occurs is an address instruction, and its
    symbol is what follows the first '@': what stands before it is
    dropped. *)
Theorem address_symbol_after_at pre s :
  line_fits (pre +:+ "@" +:+ s) ->
  has_char "@" pre = false ->
  instructionType (pre +:+ "@" +:+ s) = A_INSTRUCTION
  ∧ symbol (pre +:+ "@" +:+ s) = Ok s.
Proof.
  intros Hfit Hpre.
  change (pre +:+ "@" +:+ s) with (pre +:+ String "@" s) in *.
  pose proof (find_first _ "@" pre s eq_refl Hpre) as Hfind.
  apply line_fits_size in Hfit as Hsz. pose proof (StrFacts.size_nonneg pre).
  pose proof (StrFacts.size_nonneg s).
  rewrite StrFacts.size_app, size_cons in Hsz.
  assert (ne_minus1 (Str.size pre) = true) as Hne
    by (unfold ne_minus1, npos; apply negb_true_iff, Z.eqb_neq; lia).
  unfold instructionType, symbol. rewrite Hfind, Hne. split; [done|].
  rewrite to_size_t_small by lia.
  replace (pre +:+ String "@" s) with ((pre +:+ "@") +:+ s)
    by (by rewrite StrFacts.app_assoc).
  replace (Str.size pre + 1) with (Str.size (pre +:+ "@"))
    by (rewrite StrFacts.size_app, size_cons; done).
  apply substr_app_rest. unfold npos. lia.
Qed.

(** The line D=@x. *)
Lemma address_symbol_after_at_witness :
  instructionType ("D=" +:+ "@" +:+ "x") = A_INSTRUCTION
  ∧ symbol ("D=" +:+ "@" +:+ "x") = Ok "x".
Proof. apply (address_symbol_after_at "D=" "x"); by vm_compute. Defined.

(** X5.  A line without '@' in which "(" and then ")" occur is a label
    declaration.  Its symbol starts after the first "(" and has as many
    characters as stand before the first ")" in the whole line, less
    one: it is the text between the parentheses when "(" opens the
    line, and runs on over ")" by as many characters, less one, as
    stand before "(" otherwise. *)
Theorem label_symbol pre s post :
  line_fits (pre +:+ "(" +:+ s +:+ ")" +:+ post) ->
  has_char "@" (pre +:+ "(" +:+ s +:+ ")" +:+ post) = false ->
  has_char "(" pre = false ->
  has_char ")" pre = false ->
  has_char ")" s = false ->
  instructionType (pre +:+ "(" +:+ s +:+ ")" +:+ post) = L_INSTRUCTION
  ∧ symbol (pre +:+ "(" +:+ s +:+ ")" +:+ post)
    = Ok (Str.take (String.length pre + String.length s)
            (s +:+ ")" +:+ post))
  ∧ (pre = "" -> symbol (pre +:+ "(" +:+ s +:+ ")" +:+ post) = Ok s).
Proof.
  intros Hfit Hat Hpre1 Hpre2 Hs.
  change (pre +:+ "(" +:+ s +:+ ")" +:+ post)
    with (pre +:+ String "(" (s +:+ String ")" post)) in *.
  set (line := pre +:+ String "(" (s +:+ String ")" post)) in *.
  pose proof (find_first line "(" pre _ eq_refl Hpre1) as Hopen.
  assert (Str.find line ")" 0 = Str.size (pre +:+ String "(" s)) as Hclose.
  { apply (find_first line ")" _ post).
    - unfold line. by rewrite StrFacts.app_assoc.
    - by rewrite has_char_app, has_char_cons, Hpre2, Hs. }
  rewrite StrFacts.size_app, size_cons in Hclose.
  apply line_fits_size in Hfit as Hsz.
  pose proof (StrFacts.size_nonneg pre). pose proof (StrFacts.size_nonneg s).
  pose proof (StrFacts.size_nonneg post).
  assert (Str.size line
          = Str.size pre + (1 + (Str.size s + (1 + Str.size post)))) as Hsize
    by (unfold line;
        by rewrite StrFacts.size_app, size_cons, StrFacts.size_app, size_cons).
  assert (∀ x, 0 <= x <= Str.size line -> ne_minus1 x = true) as Hne
    by (intros x Hx; unfold ne_minus1, npos;
        apply negb_true_iff, Z.eqb_neq; lia).
  assert (symbol line
          = Ok (Str.take (String.length pre + String.length s)
                  (s +:+ String ")" post))) as Hsym.
  { unfold symbol. rewrite (find_absent line "@") by done.
    change (ne_minus1 npos) with false. cbv iota.
    rewrite Hopen, Hclose, !to_size_t_small by lia.
    replace line with ((pre +:+ "(") +:+ s +:+ String ")" post)
      by (unfold line; by rewrite StrFacts.app_assoc).
    replace (Str.size pre + 1) with (Str.size (pre +:+ "("))
      by (rewrite StrFacts.size_app, size_cons; done).
    rewrite substr_app by lia. do 2 f_equal. unfold Str.size. lia. }
  split_and!.
  - unfold instructionType. rewrite (find_absent line "@") by done.
    change (ne_minus1 npos) with false. cbv iota.
    by rewrite Hopen, Hclose, !Hne by lia.
  - done.
  - intros ->. rewrite Hsym. cbn [String.length Nat.add].
    by rewrite StrFacts.take_app_length.
Qed.

(** The label (LOOP) with one character before it. *)
Lemma label_symbol_witness :
  instructionType ("x" +:+ "(" +:+ "LOOP" +:+ ")" +:+ "")
  = L_INSTRUCTION
  ∧ symbol ("x" +:+ "(" +:+ "LOOP" +:+ ")" +:+ "")
    = Ok (Str.take (String.length "x" + String.length "LOOP")
            ("LOOP" +:+ ")" +:+ ""))
  ∧ ("x" = "" -> symbol ("x" +:+ "(" +:+ "LOOP" +:+ ")" +:+ "") = Ok "LOOP").
Proof. apply (label_symbol "x" "LOOP" ""); by vm_compute. Defined.

Example label_at_start_and_after :
  symbol "(LOOP)" = Ok "LOOP" ∧ symbol "x(LOOP)" = Ok "LOOP)".
Proof. split; by vm_compute. Qed.

(** ** The lines that the loops leave out *)

Lemma starts_with_inv pat s :
  Str.starts_with pat s = true -> ∃ y, s = pat +:+ y.
Proof.
  revert s. induction pat as [|a pat IH]; intros s H; simpl in H.
  - by exists s.
  - destruct s as [|b s]; [done|].
    apply andb_prop in H as [Hab H]. apply Ascii.eqb_eq in Hab as ->.
    destruct (IH s H) as [y ->]. by exists y.
Qed.

Lemma index_of_str_occurs pat s i :
  Str.index_of_str pat s = Some i -> occurs_in pat s.
Proof.
  revert i. induction s as [|a s IH]; intros i; rewrite index_of_str_unfold.
  - destruct (Str.starts_with pat "") eqn:Hp; [|done].
    intros _. destruct (starts_with_inv _ _ Hp) as [y Hy]. by exists "", y.
  - destruct (Str.starts_with pat (String a s)) eqn:Hp.
    + intros _. destruct (starts_with_inv _ _ Hp) as [y Hy]. by exists "", y.
    + destruct (Str.index_of_str pat s) as [k|] eqn:Hk; [|done].
      intros _. destruct (IH k eq_refl) as (x & y & ->).
      by exists (String a x), y.
Qed.

Lemma ignored_iff line :
  line_fits line ->
  ignored line = true <-> line = "" ∨ occurs_in "//" line.
Proof.
  intros Hfit. split.
  - unfold ignored. intros [He|Hf]%orb_true_iff.
    + left. by apply StrFacts.empty_spec.
    + right. unfold Str.find_str in Hf.
      destruct (Str.size line <? 0); [done|].
      rewrite StrFacts.drop_0 in Hf.
      destruct (Str.index_of_str "//" line) as [i|] eqn:Hi; [|done].
      by eapply index_of_str_occurs.
  - intros [->|Hocc]; [done|]. by apply ignored_comment.
Qed.

(** X6.  The three loops leave out exactly the lines (of at most
    [INT_MAX] characters) that, their spaces taken out, are empty or
    hold "//" somewhere; every other line is an address instruction, a
    label declaration or a computation instruction. *)
Theorem ignored_lines raw :
  line_fits raw ->
  (view raw = Ok Ignored
   <-> without_spaces raw = "" ∨ occurs_in "//" (without_spaces raw))
  ∧ ∃ v, view raw = Ok v.
Proof.
  intros Hfit. split; [|by apply view_ok].
  rewrite <- ignored_iff by by apply line_fits_without_spaces.
  unfold view. rewrite advance_ok by done.
  change (view_of_line (without_spaces raw) = Ok Ignored
          <-> ignored (without_spaces raw) = true).
  unfold view_of_line.
  destruct (ignored (without_spaces raw)); [done|].
  destruct (symbol_ok (without_spaces raw)) as (s & -> & _).
  destruct (dest_ok (without_spaces raw)) as (d & ->).
  destruct (comp_ok (without_spaces raw)) as (c & -> & _).
  destruct (jump_ok (without_spaces raw)) as (j & ->).
  split; [|done]. repeat case_match; simpl; congruence.
Qed.

(** A comment whose two slashes are a space apart. *)
Lemma ignored_lines_witness :
  (view "  / / note" = Ok Ignored
   <-> without_spaces "  / / note" = ""
       ∨ occurs_in "//" (without_spaces "  / / note"))
  ∧ ∃ v, view "  / / note" = Ok v.
Proof. apply (ignored_lines "  / / note"). by vm_compute. Defined.

(** * More on the three passes *)

Lemma first_such {A : Type} (P : A -> Prop) `{!∀ x, Decision (P x)}
    (l : list A) x :
  x ∈ l -> P x ->
  ∃ pre y post, l = pre ++ y :: post ∧ P y ∧ ∀ z, z ∈ pre -> ¬ P z.
Proof.
  induction l as [|a l IH]; intros Hin Hx; [by apply elem_of_nil in Hin|].
  destruct (decide (P a)) as [Ha|Ha].
  - exists [], a, l. split_and!; [done..|]. intros z Hz.
    by apply elem_of_nil in Hz.
  - apply elem_of_cons in Hin as [->|Hin]; [done|].
    destruct (IH Hin Hx) as (pre & y & post & -> & Hy & Hpre).
    exists (a :: pre), y, post. split_and!; [done..|].
    intros z [->|Hz]%elem_of_cons; [done|by apply Hpre].
Qed.

Lemma address_symbol_view raw s :
  address_symbol raw = Some s <-> view raw = Ok (Address s).
Proof.
  unfold address_symbol.
  destruct (view raw) as [[]| |]; split; congruence.
Qed.

Lemma label_of_view raw s :
  label_of raw = Some s <-> view raw = Ok (Label s).
Proof.
  unfold label_of. destruct (view raw) as [[]| |]; split; congruence.
Qed.

(** The first address instruction with a given symbol. *)
Lemma first_address file s :
  s ∈ address_symbols file ->
  ∃ pre raw post,
    file = pre ++ raw :: post ∧ view raw = Ok (Address s)
    ∧ s ∉ address_symbols pre.
Proof.
  intros (raw & Hin & Hraw)%list_elem_of_omap.
  destruct (first_such (λ r, address_symbol r = Some s) file raw Hin Hraw)
    as (pre & y & post & -> & Hy & Hpre).
  exists pre, y, post. split_and!; [done|by apply address_symbol_view|].
  intros (z & Hz & Hzs)%list_elem_of_omap. by eapply Hpre.
Qed.

(** The first declaration of a label. *)
Lemma first_label file raw s :
  raw ∈ file -> view raw = Ok (Label s) ->
  ∃ pre raw' post,
    file = pre ++ raw' :: post ∧ view raw' = Ok (Label s)
    ∧ ∀ r, r ∈ pre -> view r ≠ Ok (Label s).
Proof.
  intros Hin Hraw. apply label_of_view in Hraw.
  destruct (first_such (λ r, label_of r = Some s) file raw Hin Hraw)
    as (pre & y & post & -> & Hy & Hpre).
  exists pre, y, post. split_and!; [done|by apply label_of_view|].
  intros r Hr Hv. apply (Hpre r Hr). by apply label_of_view.
Qed.

(** After the second loop the table holds the symbol of every address
    instruction. *)
Lemma pass2_binds_all file (t t' : gmap string Z) a a' :
  Forall line_fits file ->
  - 2 ^ 31 <= a -> a + Z.of_nat (length file) <= INT_MAX ->
  while_lines pass2_body (t, a) file = Ok (t', a') ->
  ∀ s, s ∈ address_symbols file -> is_Some (t' !! s).
Proof.
  intros Hfit Ha Hlen Hrun s Hs.
  destruct (pass2_run file t a Hfit Ha Hlen)
    as (t'' & Hrun' & Hkeep & _ & Hfirst & Hnum).
  rewrite Hrun in Hrun'. injection Hrun' as <- _.
  destruct (t !! s) as [x|] eqn:Hts; [by eexists; apply Hkeep|].
  destruct (AllisNum s) eqn:Hdigits; [by eexists; apply Hnum|].
  destruct (first_address file s Hs) as (pre & raw & post & -> & Hv & Hpre).
  eexists. by eapply Hfirst.
Qed.

Lemma getAddress_present (t : gmap string Z) s :
  (getAddress t s).1 = default 0 (t !! s)
  ∧ (is_Some (t !! s) -> (getAddress t s).2 = t).
Proof.
  unfold getAddress, subscript. destruct (t !! s) as [x|]; simpl; [done|].
  split; [done|]. by intros [? ?].
Qed.

(** The third loop on a table that holds the symbol of every address
    instruction: the table stays as it is, and the lines written are
    those of [line_of], in the order of the file. *)
Lemma pass3_emits file : ∀ st,
  Forall line_fits file ->
  code_ok (emit_code st) ->
  (∀ s, s ∈ address_symbols file -> is_Some (emit_symbols st !! s)) ->
  ∃ code',
    while_lines pass3_body st file
    = Ok (mkEmit (emit_symbols st) code'
            (emit_out st ++ omap (line_of (emit_symbols st)) file))
    ∧ code_ok code'.
Proof.
  induction file as [|raw file IH]; intros st Hfit Hok Hall.
  { exists (emit_code st). simpl. rewrite app_nil_r. by destruct st. }
  apply Forall_cons in Hfit as [Hraw Hfit].
  destruct (view_ok raw Hraw) as [v Hv].
  destruct (pass3_step_spec st raw v Hraw Hv Hok) as [Hok1 Hout1].
  assert (emit_symbols (pass3_step st v) = emit_symbols st) as Hsym.
  { destruct v as [|s|s|d c j]; try done. simpl.
    apply getAddress_present, Hall. rewrite address_symbols_cons.
    unfold address_symbol. rewrite Hv. left. }
  assert (omap (line_of (emit_symbols st)) (raw :: file)
          = match v with
            | Ignored | Label _ => []
            | Address s => [encodeAddress (getAddress (emit_symbols st) s).1]
            | Computation d c j => [computation_line d c j]
            end ++ omap (line_of (emit_symbols st)) file) as Hlines.
  { cbn [omap list_omap]. unfold line_of at 1. rewrite Hv.
    destruct v as [|s|s|d c j]; try done. simpl.
    by destruct (getAddress_present (emit_symbols st) s) as [-> _]. }
  destruct (IH (pass3_step st v) Hfit Hok1) as (code' & Hrun & Hok').
  { intros s Hs. rewrite Hsym. apply Hall. rewrite address_symbols_cons.
    destruct (address_symbol raw); [by right|done]. }
  exists code'. split; [|done].
  rewrite (while_lines_cons _ _ (pass3_step st v))
    by (by apply pass3_body_view).
  by rewrite Hrun, Hsym, Hout1, Hlines, <- app_assoc.
Qed.

(** The two symbol passes and the third loop on a file within the sizes
    of [source_fits]. *)
Lemma run_ok file :
  source_fits file ->
  ∃ (t1 t2 : gmap string Z) code',
    pass1 file = Ok (t1, instructions file)
    ∧ pass2 t1 file
      = Ok (t2, 16 + Z.of_nat (size (variables t1 (address_symbols file))))
    ∧ resolve file = Ok t2
    ∧ (∀ s, s ∈ address_symbols file -> is_Some (t2 !! s))
    ∧ pass3 t2 file = Ok (mkEmit t2 code' (omap (line_of t2) file))
    ∧ code_ok code'
    ∧ main file = Ok (0, omap (line_of t2) file).
Proof.
  intros [Hlen Hfit].
  destruct (pass1_run _ SymbolTable_new 0 Hfit) as (t1 & Hrun1 & _); [lia..|].
  destruct (pass2_run _ t1 16 Hfit) as (t2 & Hrun2 & _); [lia..|].
  rewrite Z.add_0_l in Hrun1.
  assert (∀ s, s ∈ address_symbols file -> is_Some (t2 !! s)) as Hall
    by (eapply pass2_binds_all; [done| | |done]; lia).
  destruct (pass3_emits file (mkEmit t2 Code_new []) Hfit code_ok_new Hall)
    as (code' & Hrun3 & Hok).
  simpl in Hrun3.
  assert (resolve file = Ok t2) as Hres.
  { unfold resolve, pass1, pass2. rewrite Hrun1. cbn [mbind result_bind].
    by rewrite Hrun2. }
  exists t1, t2, code'. split_and!; try done.
  unfold main. rewrite Hres. cbn [mbind result_bind].
  unfold pass3. by rewrite Hrun3.
Qed.

Lemma length_line_of (t : gmap string Z) file :
  Z.of_nat (length (omap (line_of t) file)) = instructions file.
Proof.
  induction file as [|raw file IH]; [done|].
  rewrite instructions_cons, <- IH. cbn [omap list_omap].
  unfold line_of at 1, is_instruction.
  destruct (view raw) as [[]| |]; simpl length; lia.
Qed.

(** X7.  On a source file within the sizes of [source_fits] the run
    ends with exit code 0, and its output is, in the order of the file,
    one line for each address instruction, the encoding of the address
    that the resolved table holds for its symbol, and one line for each
    computation instruction; ignored lines and labels give none. *)
Theorem output_lines file :
  source_fits file ->
  ∃ t2 : gmap string Z,
    resolve file = Ok t2
    ∧ main file = Ok (0, omap (line_of t2) file)
    ∧ Z.of_nat (length (omap (line_of t2) file)) = instructions file.
Proof.
  intros Hfit.
  destruct (run_ok file Hfit) as (t1 & t2 & code' & _ & _ & Hres & _ & _ & _ & Hmain).
  exists t2. split_and!; [done..|]. apply length_line_of.
Qed.

(** The file [example_sum]. *)
Lemma output_lines_witness :
  ∃ t2 : gmap string Z,
    resolve example_sum = Ok t2
    ∧ main example_sum = Ok (0, omap (line_of t2) example_sum)
    ∧ Z.of_nat (length (omap (line_of t2) example_sum))
      = instructions example_sum.
Proof. apply (output_lines example_sum). solve_source_fits. Defined.

(** X8.  On a source file within the sizes of [source_fits] the table
    that the two symbol passes leave holds the symbol of every address
    instruction, so that the third loop never meets a missing key: it
    ends with the symbol table as it found it, and with encoder tables
    that read like those of the constructor. *)
Theorem pass3_keeps_tables file :
  source_fits file ->
  ∃ (t2 : gmap string Z) st,
    resolve file = Ok t2
    ∧ (∀ s, s ∈ address_symbols file -> is_Some (t2 !! s))
    ∧ pass3 t2 file = Ok st
    ∧ emit_symbols st = t2
    ∧ code_ok (emit_code st).
Proof.
  intros Hfit.
  destruct (run_ok file Hfit)
    as (t1 & t2 & code' & _ & _ & Hres & Hall & Hrun3 & Hok & _).
  by exists t2, (mkEmit t2 code' (omap (line_of t2) file)).
Qed.

(** The file [example_sum]. *)
Lemma pass3_keeps_tables_witness :
  ∃ (t2 : gmap string Z) st,
    resolve example_sum = Ok t2
    ∧ (∀ s, s ∈ address_symbols example_sum -> is_Some (t2 !! s))
    ∧ pass3 t2 example_sum = Ok st
    ∧ emit_symbols st = t2
    ∧ code_ok (emit_code st).
Proof. apply (pass3_keeps_tables example_sum). solve_source_fits. Defined.

(** ** Well-formed output *)

Lemma binary16_encodeAddress a : binary16 (encodeAddress a).
Proof.
  unfold binary16.
  change (encodeAddress a) with (String "0" (address_bits 15 0 a "")).
  cbn [String.length is_binary].
  by rewrite length_address_bits, is_binary_address_bits.
Qed.

Lemma table_entries_binary :
  map_Forall (λ _ v, is_binary v = true) CodeInit.destMap
  ∧ map_Forall (λ _ v, is_binary v = true) CodeInit.compMap
  ∧ map_Forall (λ _ v, is_binary v = true) CodeInit.jumpMap.
Proof.
  split_and!; apply (bool_decide_unpack _); vm_compute; exact I.
Qed.

Lemma binary16_computation_line d c j :
  valid_fields d c j -> binary16 (computation_line d c j).
Proof.
  intros ([vd Hd] & [vc Hc] & [vj Hj]).
  destruct table_entries_binary as (Bd & Bc & Bj).
  destruct (compMap_entry _ _ Hc) as (_ & Lc & _).
  pose proof (destMap_entry _ _ Hd) as Ld.
  pose proof (jumpMap_entry _ _ Hj) as Lj.
  apply Bd in Hd as Hbd. apply Bc in Hc as Hbc. apply Bj in Hj as Hbj.
  simpl in Hbd, Hbc, Hbj.
  split.
  - rewrite length_computation_line. unfold field.
    rewrite Hd, Hc, Hj. simpl. lia.
  - unfold computation_line, field. rewrite Hd, Hc, Hj.
    cbn [default from_option id].
    change ("111" +:+ String ?b vc +:+ vd +:+ vj)
      with (String "1" (String "1" (String "1" (String b (vc +:+ vd +:+ vj))))).
    cbn [is_binary]. rewrite !is_binary_app, Hbd, Hbc, Hbj.
    by destruct (has_char "M" c).
Qed.

(** X9.  When the three fields of every computation instruction of the
    file are in the tables, every line of the output has exactly 16
    characters, each '0' or '1' (the file being within the sizes of
    [source_fits]). *)
Theorem well_formed_output file :
  source_fits file ->
  (∀ raw d c j,
     raw ∈ file -> view raw = Ok (Computation d c j) -> valid_fields d c j) ->
  ∃ out, main file = Ok (0, out) ∧ Forall binary16 out.
Proof.
  intros Hfit Hvalid.
  destruct (run_ok file Hfit) as (t1 & t2 & code' & _ & _ & _ & _ & _ & _ & Hmain).
  eexists. split; [done|]. apply Forall_forall.
  intros l (raw & Hraw & Hl)%list_elem_of_omap. unfold line_of in Hl.
  destruct (view raw) as [[|s|s|d c j]| |] eqn:Hv; try done;
    injection Hl as <-.
  - apply binary16_encodeAddress.
  - apply binary16_computation_line. by eapply Hvalid.
Qed.

(** The file [example_sum]. *)
Lemma well_formed_output_witness :
  ∃ out, main example_sum = Ok (0, out) ∧ Forall binary16 out.
Proof.
  apply (well_formed_output example_sum); [solve_source_fits|].
  intros raw d c j Hraw. revert raw Hraw d c j.
  refine (proj1 (Forall_forall
            (λ raw, ∀ d c j, view raw = Ok (Computation d c j) ->
                             valid_fields d c j) example_sum) _).
  repeat (first [apply Forall_nil_2 | apply Forall_cons_2]);
    intros d c j Hv; vm_compute in Hv;
    try discriminate Hv; injection Hv as <- <- <-;
    (split_and!; eexists; vm_compute; reflexivity).
Defined.

(** ** The resolved table *)

(** X10.  The table that the two symbol passes leave is a fixed point
    of the second loop: run again on it, the loop binds nothing and
    leaves the variable counter at 16 (the file being within the sizes
    of [source_fits]). *)
Theorem pass2_fixed_point file :
  source_fits file ->
  ∃ t2 : gmap string Z, resolve file = Ok t2 ∧ pass2 t2 file = Ok (t2, 16).
Proof.
  intros Hfit.
  destruct (run_ok file Hfit) as (t1 & t2 & code' & _ & _ & Hres & Hall & _).
  exists t2. split; [done|]. destruct Hfit as [Hlen Hfit].
  destruct (pass2_run file t2 16 Hfit) as (t3 & Hrun & Hkeep & Hnone & _);
    [lia..|].
  unfold pass2. rewrite Hrun. do 2 f_equal.
  - apply map_eq. intros s. destruct (t2 !! s) as [x|] eqn:Hs.
    + by apply Hkeep.
    + apply Hnone; [done|]. intros Hin. apply Hall in Hin as [? ?].
      congruence.
  - assert (variables t2 (address_symbols file) = ∅) as ->.
    { apply set_eq. intros s. rewrite elem_of_variables.
      split; [|by intros ?%elem_of_empty].
      intros [Hin [Hs _]]. apply Hall in Hin as [? ?]. congruence. }
    rewrite size_empty. lia.
Qed.

(** The file [example_sum]. *)
Lemma pass2_fixed_point_witness :
  ∃ t2 : gmap string Z,
    resolve example_sum = Ok t2 ∧ pass2 t2 example_sum = Ok (t2, 16).
Proof. apply (pass2_fixed_point example_sum). solve_source_fits. Defined.

(** X11.  The symbols of the resolved table are the predefined symbols,
    the labels that the file declares and the symbols of its address
    instructions, and no other (the file being within the sizes of
    [source_fits]). *)
Theorem resolved_symbols file :
  source_fits file ->
  ∃ t2 : gmap string Z,
    resolve file = Ok t2
    ∧ ∀ s, is_Some (t2 !! s)
           <-> is_Some (SymbolTable_new !! s)
               ∨ (∃ raw, raw ∈ file ∧ view raw = Ok (Label s))
               ∨ s ∈ address_symbols file.
Proof.
  intros [Hlen Hfit].
  destruct (pass1_run _ SymbolTable_new 0 Hfit)
    as (t1 & Hrun1 & Hkeep1 & Hnone1 & Hfirst1); [lia..|].
  destruct (pass2_run _ t1 16 Hfit)
    as (t2 & Hrun2 & Hkeep2 & Hnone2 & _); [lia..|].
  assert (∀ s, s ∈ address_symbols file -> is_Some (t2 !! s)) as Hall
    by (eapply pass2_binds_all; [done| | |done]; lia).
  exists t2. split.
  { unfold resolve, pass1, pass2. rewrite Hrun1. cbn [mbind result_bind].
    by rewrite Hrun2. }
  intros s. split.
  - intros Ht2.
    destruct (decide (s ∈ address_symbols file)) as [?|Hni]; [by auto|].
    destruct (SymbolTable_new !! s) as [x|] eqn:Hs0; [by left|].
    right. left.
    destruct (decide (Exists (λ r, label_of r = Some s) file)) as [Hex|Hno].
    + apply Exists_exists in Hex as (raw & Hraw & Hl).
      exists raw. split; [done|by apply label_of_view].
    + exfalso. rewrite <- Forall_Exists_neg, Forall_forall in Hno.
      assert (t1 !! s = None) as Ht1.
      { apply Hnone1; [done|]. intros r Hr Hv. apply (Hno r Hr).
        by apply label_of_view. }
      rewrite (Hnone2 s Ht1 Hni) in Ht2. by destruct Ht2.
  - intros [[x Hx]|[(raw & Hraw & Hv)|Hin]].
    + eexists. by apply Hkeep2, Hkeep1.
    + destruct (SymbolTable_new !! s) as [x|] eqn:Hs0.
      { eexists. by apply Hkeep2, Hkeep1. }
      destruct (first_label file raw s Hraw Hv)
        as (pre & raw' & post & Hfile & Hv' & Hpre).
      eexists. eapply Hkeep2, Hfirst1; done.
    + by apply Hall.
Qed.

(** The file [example_sum]. *)
Lemma resolved_symbols_witness :
  ∃ t2 : gmap string Z,
    resolve example_sum = Ok t2
    ∧ ∀ s, is_Some (t2 !! s)
           <-> is_Some (SymbolTable_new !! s)
               ∨ (∃ raw, raw ∈ example_sum ∧ view raw = Ok (Label s))
               ∨ s ∈ address_symbols example_sum.
Proof. apply (resolved_symbols example_sum). solve_source_fits. Defined.

(** ** Variables and their addresses *)

Lemma address_symbols_app l1 l2 :
  address_symbols (l1 ++ l2) = address_symbols l1 ++ address_symbols l2.
Proof. apply omap_app. Qed.

Lemma variables_subseteq t l l' :
  (∀ s, s ∈ l -> s ∈ l') -> variables t l ⊆ variables t l'.
Proof.
  intros Hl s. rewrite !elem_of_variables. intros [??]. split; auto.
Qed.

(** The variables met before the first occurrence of a variable are
    fewer than those of the whole file. *)
Lemma variables_before t pre raw post s :
  view raw = Ok (Address s) -> is_variable t s ->
  s ∉ address_symbols pre ->
  (size (variables t (address_symbols pre))
   < size (variables t (address_symbols (pre ++ raw :: post))))%nat.
Proof.
  intros Hv Hs Hni. apply subset_size. split.
  - apply variables_subseteq. intros x Hx.
    rewrite address_symbols_app. apply elem_of_app. by left.
  - intros Hsub.
    assert (s ∈ variables t (address_symbols (pre ++ raw :: post))) as Hin.
    { apply elem_of_variables. split; [|done].
      rewrite address_symbols_app, address_symbols_cons.
      apply address_symbol_view in Hv as ->.
      apply elem_of_app. right. left. }
    apply Hsub, elem_of_variables in Hin as [Hin _]. done.
Qed.

Lemma split_cases {A : Type} (pre pre' : list A) x x' post post' :
  pre ++ x :: post = pre' ++ x' :: post' ->
  (pre = pre' ∧ x = x')
  ∨ (∃ mid, pre' = pre ++ x :: mid)
  ∨ (∃ mid, pre = pre' ++ x' :: mid).
Proof.
  revert pre'. induction pre as [|a pre IH]; intros [|a' pre'] H;
    simpl in H; injection H as -> H.
  - by left.
  - right. left. by exists pre'.
  - right. right. by exists pre.
  - destruct (IH pre' H) as [[-> ->]|[[mid ->]|[mid ->]]].
    + by left.
    + right. left. by exists mid.
    + right. right. by exists mid.
Qed.

(** X12.  The variables of a file, that is the symbols of its address
    instructions that are neither in the table after pass 1 nor made of
    digits only, get the addresses from 16 up to 16 plus their number,
    less one, and no two of them the same address (the file being
    within the sizes of [source_fits]). *)
Theorem variables_distinct file :
  source_fits file ->
  ∃ (t1 : gmap string Z) a1 (t2 : gmap string Z),
    pass1 file = Ok (t1, a1)
    ∧ resolve file = Ok t2
    ∧ (∀ s, s ∈ variables t1 (address_symbols file) ->
            ∃ v, t2 !! s = Some v
                 ∧ 16 <= v
                   < 16 + Z.of_nat
                            (size (variables t1 (address_symbols file))))
    ∧ (∀ s s', s ∈ variables t1 (address_symbols file) ->
               s' ∈ variables t1 (address_symbols file) ->
               t2 !! s = t2 !! s' -> s = s').
Proof.
  intros [Hlen Hfit].
  destruct (pass1_run _ SymbolTable_new 0 Hfit) as (t1 & Hrun1 & _); [lia..|].
  destruct (pass2_run _ t1 16 Hfit)
    as (t2 & Hrun2 & _ & _ & Hfirst & _); [lia..|].
  exists t1, (0 + instructions file), t2. split_and!; [done|..].
  { unfold resolve, pass1, pass2. rewrite Hrun1. cbn [mbind result_bind].
    by rewrite Hrun2. }
  - intros s [Hin Hs]%elem_of_variables.
    destruct (first_address file s Hin)
      as (pre & raw & post & -> & Hv & Hpre).
    eexists. split; [by eapply Hfirst|].
    pose proof (variables_before t1 pre raw post s Hv Hs Hpre). lia.
  - intros s s' [Hin Hs]%elem_of_variables [Hin' Hs']%elem_of_variables Heq.
    destruct (first_address file s Hin)
      as (pre & raw & post & Hfile & Hv & Hpre).
    destruct (first_address file s' Hin')
      as (pre' & raw' & post' & Hfile' & Hv' & Hpre').
    rewrite (Hfirst pre raw post s Hfile Hv Hs Hpre) in Heq.
    rewrite (Hfirst pre' raw' post' s' Hfile' Hv' Hs' Hpre') in Heq.
    injection Heq as Heq.
    rewrite Hfile' in Hfile.
    destruct (split_cases _ _ _ _ _ _ Hfile) as [[-> ->]|[[mid ->]|[mid ->]]].
    + congruence.
    + pose proof (variables_before t1 pre' raw' mid s' Hv' Hs' Hpre'). lia.
    + pose proof (variables_before t1 pre raw mid s Hv Hs Hpre). lia.
Qed.

(** The file [example_sum]. *)
Lemma variables_distinct_witness :
  ∃ (t1 : gmap string Z) a1 (t2 : gmap string Z),
    pass1 example_sum = Ok (t1, a1)
    ∧ resolve example_sum = Ok t2
    ∧ (∀ s, s ∈ variables t1 (address_symbols example_sum) ->
            ∃ v, t2 !! s = Some v
                 ∧ 16 <= v
                   < 16 + Z.of_nat
                            (size (variables t1
                                     (address_symbols example_sum))))
    ∧ (∀ s s', s ∈ variables t1 (address_symbols example_sum) ->
               s' ∈ variables t1 (address_symbols example_sum) ->
               t2 !! s = t2 !! s' -> s = s').
Proof. apply (variables_distinct example_sum). solve_source_fits. Defined.

(** ** Addresses out of range *)

Lemma address_bits_ext n : ∀ i a b,
  0 <= i ->
  (∀ k, i <= k < i + Z.of_nat n -> Z.testbit a k = Z.testbit b k) ->
  address_bits n i a "" = address_bits n i b "".
Proof.
  induction n as [|n IH]; intros i a b Hi Hbits; [done|].
  rewrite !address_bits_S by done.
  rewrite (IH (i + 1) a b) by (try lia; intros k Hk; apply Hbits; lia).
  by rewrite (Hbits i) by lia.
Qed.

(** X13.  The line written for an address holds its 15 low bits only:
    an address outside 0..32767 is written as the address modulo 32768,
    and reads back as that. *)
Theorem encodeAddress_low_bits a :
  encodeAddress a = encodeAddress (a mod 32768)
  ∧ binary_value (Str.drop 1 (encodeAddress a)) = a mod 32768.
Proof.
  split.
  - unfold encodeAddress. f_equal. apply address_bits_ext; [done|].
    intros k Hk. change 32768 with (2 ^ 15).
    by rewrite Z.mod_pow2_bits_low by lia.
  - change (Str.drop 1 (encodeAddress a)) with (address_bits 15 0 a "").
    rewrite binary_value_address_bits by done.
    by rewrite Z.shiftr_0_r.
Qed.

Example encodeAddress_32768 :
  encodeAddress 32768 = "0000000000000000"
  ∧ encodeAddress 40000 = encodeAddress 7232.
Proof. split; reflexivity. Qed.

(** ** The encoder tables under [operator[]] *)

Lemma Code_comp_raw code c :
  (Code_comp c code).1
  = (if eq_minus1 (Str.find c "M" 0) then "0" else "1")
    +:+ field (compMap code) c.
Proof.
  unfold Code_comp.
  pose proof (subscript_field (compMap code) c) as [Hv _].
  destruct (subscript EmptyString (compMap code) c) as [v m]. simpl in *.
  rewrite Hv. by destruct (eq_minus1 _).
Qed.

Lemma code_ok_dest code d : code_ok code -> code_ok (Code_dest d code).2.
Proof.
  intros Hok k. destruct (Hok k) as (Hd & Hc & Hj). unfold Code_dest.
  pose proof (subscript_field (destMap code) d) as [_ Hm].
  destruct (subscript EmptyString (destMap code) d) as [v m]. simpl in *.
  by rewrite Hm.
Qed.

Lemma code_ok_comp code c : code_ok code -> code_ok (Code_comp c code).2.
Proof.
  intros Hok k. destruct (Hok k) as (Hd & Hc & Hj). unfold Code_comp.
  pose proof (subscript_field (compMap code) c) as [_ Hm].
  destruct (subscript EmptyString (compMap code) c) as [v m]. simpl in *.
  by rewrite Hm.
Qed.

Lemma code_ok_jump code j : code_ok code -> code_ok (Code_jump j code).2.
Proof.
  intros Hok k. destruct (Hok k) as (Hd & Hc & Hj). unfold Code_jump.
  pose proof (subscript_field (jumpMap code) j) as [_ Hm].
  destruct (subscript EmptyString (jumpMap code) j) as [v m]. simpl in *.
  by rewrite Hm.
Qed.

(** X14.  The entries that [operator[]] adds to the tables for absent
    mnemonics change no answer of the encoder: on tables that read like
    those of the constructor, [dest], [comp] and [jump] return what
    they return on the tables of the constructor, and leave tables that
    still read like them. *)
Theorem encoder_lookups_stable code d c j :
  code_ok code ->
  (Code_dest d code).1 = (Code_dest d Code_new).1
  ∧ (Code_comp c code).1 = (Code_comp c Code_new).1
  ∧ (Code_jump j code).1 = (Code_jump j Code_new).1
  ∧ code_ok (Code_dest d code).2
  ∧ code_ok (Code_comp c code).2
  ∧ code_ok (Code_jump j code).2.
Proof.
  intros Hok.
  destruct (Hok d) as (Hd & _ & _), (Hok c) as (_ & Hc & _),
    (Hok j) as (_ & _ & Hj).
  split_and!.
  - by rewrite !Code_dest_value.
  - by rewrite !Code_comp_raw, Hc.
  - by rewrite !Code_jump_value.
  - by apply code_ok_dest.
  - by apply code_ok_comp.
  - by apply code_ok_jump.
Qed.

(** The tables after a lookup of the absent destination AMD. *)
Lemma encoder_lookups_stable_witness :
  (Code_dest "AMD" (Code_dest "AMD" Code_new).2).1
  = (Code_dest "AMD" Code_new).1
  ∧ (Code_comp "D+M" (Code_dest "AMD" Code_new).2).1
    = (Code_comp "D+M" Code_new).1
  ∧ (Code_jump "JMP" (Code_dest "AMD" Code_new).2).1
    = (Code_jump "JMP" Code_new).1
  ∧ code_ok (Code_dest "AMD" (Code_dest "AMD" Code_new).2).2
  ∧ code_ok (Code_comp "D+M" (Code_dest "AMD" Code_new).2).2
  ∧ code_ok (Code_jump "JMP" (Code_dest "AMD" Code_new).2).2.
Proof.
  apply (encoder_lookups_stable (Code_dest "AMD" Code_new).2
           "AMD" "D+M" "JMP").
  apply code_ok_dest, code_ok_new.
Defined.

(** ** From the source text to the output line *)

Lemma binary_value_encodeAddress a :
  0 <= a <= 32767 -> binary_value (Str.drop 1 (encodeAddress a)) = a.
Proof.
  intros Ha.
  change (Str.drop 1 (encodeAddress a)) with (address_bits 15 0 a "").
  rewrite binary_value_address_bits, Z.shiftr_0_r by done.
  apply Z.mod_small. simpl. lia.
Qed.

(** The passes of [run_ok], with what the first two loops keep. *)
Lemma run_tables file :
  source_fits file ->
  ∃ (t1 t2 : gmap string Z),
    resolve file = Ok t2
    ∧ main file = Ok (0, omap (line_of t2) file)
    ∧ (∀ s, SymbolTable_new !! s = None ->
            (∀ r, r ∈ file -> view r ≠ Ok (Label s)) -> t1 !! s = None)
    ∧ (∀ pre raw post s,
         file = pre ++ raw :: post -> view raw = Ok (Label s) ->
         SymbolTable_new !! s = None ->
         (∀ r, r ∈ pre -> view r ≠ Ok (Label s)) ->
         t1 !! s = Some (instructions pre))
    ∧ (∀ s x, t1 !! s = Some x -> t2 !! s = Some x)
    ∧ (∀ s, t1 !! s = None -> AllisNum s = true ->
            s ∈ address_symbols file -> t2 !! s = Some (stonum s)).
Proof.
  intros Hsrc. pose proof Hsrc as [Hlen Hfit].
  destruct (run_ok file Hsrc)
    as (t1 & t2 & code' & Hp1 & Hp2 & Hres & _ & _ & _ & Hmain).
  destruct (pass1_run _ SymbolTable_new 0 Hfit)
    as (t1' & Hrun1 & _ & Hnone1 & Hfirst1); [lia..|].
  assert (t1' = t1) as -> by (unfold pass1 in Hp1; congruence).
  destruct (pass2_run _ t1 16 Hfit)
    as (t2' & Hrun2 & Hkeep2 & _ & _ & Hnum2); [lia..|].
  assert (t2' = t2) as -> by (unfold pass2 in Hp2; congruence).
  exists t1, t2. split_and!; done.
Qed.

(** X15.  A decimal literal of at most 5 digits and of value at most
    32767 comes out as itself: the line written for an address
    instruction with such a symbol, which no label line declares, is
    the encoding of its decimal value, and reads back as that value
    (the file being within the sizes of [source_fits]). *)
Theorem literal_line file raw s :
  source_fits file ->
  raw ∈ file ->
  view raw = Ok (Address s) ->
  AllisNum s = true ->
  Str.size s <= 5 ->
  decimal_value s <= 32767 ->
  (∀ r, r ∈ file -> view r ≠ Ok (Label s)) ->
  ∃ t2 : gmap string Z,
    resolve file = Ok t2
    ∧ main file = Ok (0, omap (line_of t2) file)
    ∧ line_of t2 raw = Some (encodeAddress (decimal_value s))
    ∧ binary_value (Str.drop 1 (encodeAddress (decimal_value s)))
      = decimal_value s.
Proof.
  intros Hsrc Hin Hv Hnum Hsize Hvalue Hnolabel.
  destruct (run_tables file Hsrc)
    as (t1 & t2 & Hres & Hmain & Hnone1 & _ & _ & Hnum2).
  assert (line_fits s) as Hs.
  { destruct Hsrc as [_ Hfit]. rewrite Forall_forall in Hfit.
    eapply view_symbol_fits; [by apply Hfit|by right]. }
  assert (stonum s = decimal_value s) as Hstonum.
  { rewrite stonum_spec by done.
    destruct (Z.ltb_spec 5 (Str.size s)); [lia|].
    by destruct (Z.ltb_spec 32767 (decimal_value s)); [lia|]. }
  pose proof (decimal_value_from_ge 0 s Hnum ltac:(lia)) as Hge.
  fold (decimal_value s) in Hge.
  exists t2. split_and!; try done.
  - unfold line_of. rewrite Hv.
    rewrite (Hnum2 s); [by rewrite Hstonum| |done|].
    + apply Hnone1; [by apply predefined_not_digits|done].
    + by eapply elem_of_address_symbols.
  - apply binary_value_encodeAddress. lia.
Qed.

(** The literal 007 of the file [example_literals]. *)
Lemma literal_line_witness :
  ∃ t2 : gmap string Z,
    resolve example_literals = Ok t2
    ∧ main example_literals = Ok (0, omap (line_of t2) example_literals)
    ∧ line_of t2 "@ 007" = Some (encodeAddress (decimal_value "007"))
    ∧ binary_value (Str.drop 1 (encodeAddress (decimal_value "007")))
      = decimal_value "007".
Proof.
  apply (literal_line example_literals "@ 007" "007").
  - solve_source_fits.
  - do 4 right. left.
  - by vm_compute.
  - reflexivity.
  - by vm_compute.
  - by vm_compute.
  - refine (proj1 (Forall_forall (λ r, view r ≠ Ok (Label "007"))
                     example_literals) _).
    repeat (first [apply Forall_nil_2 | apply Forall_cons_2]);
      by vm_compute.
Defined.

(** X16.  A reference to a label, before or after its declaration, is
    written as the number of address and computation instructions
    before the first declaration of the label: that is the address the
    line written for the address instruction encodes, and, up to 32767,
    reads back as (the label not being a predefined symbol, the file
    within the sizes of [source_fits]). *)
Theorem label_reference_line pre decl post raw s :
  source_fits (pre ++ decl :: post) ->
  view decl = Ok (Label s) ->
  SymbolTable_new !! s = None ->
  (∀ r, r ∈ pre -> view r ≠ Ok (Label s)) ->
  raw ∈ pre ++ decl :: post ->
  view raw = Ok (Address s) ->
  instructions pre <= 32767 ->
  ∃ t2 : gmap string Z,
    resolve (pre ++ decl :: post) = Ok t2
    ∧ main (pre ++ decl :: post)
      = Ok (0, omap (line_of t2) (pre ++ decl :: post))
    ∧ line_of t2 raw = Some (encodeAddress (instructions pre))
    ∧ binary_value (Str.drop 1 (encodeAddress (instructions pre)))
      = instructions pre.
Proof.
  intros Hsrc Hdecl Hs Hpre Hin Hv Hsmall.
  destruct (run_tables _ Hsrc)
    as (t1 & t2 & Hres & Hmain & _ & Hfirst1 & Hkeep2 & _).
  exists t2. split_and!; try done.
  - unfold line_of. rewrite Hv.
    by rewrite (Hkeep2 s _ (Hfirst1 pre decl post s eq_refl Hdecl Hs Hpre)).
  - apply binary_value_encodeAddress.
    pose proof (instructions_range pre). lia.
Qed.

(** The reference to END in [example_sum], ahead of its declaration. *)
Lemma label_reference_line_witness :
  ∃ t2 : gmap string Z,
    resolve (take 14 example_sum ++ "(END)" :: drop 15 example_sum) = Ok t2
    ∧ main (take 14 example_sum ++ "(END)" :: drop 15 example_sum)
      = Ok (0, omap (line_of t2)
                 (take 14 example_sum ++ "(END)" :: drop 15 example_sum))
    ∧ line_of t2 "@END"
      = Some (encodeAddress (instructions (take 14 example_sum)))
    ∧ binary_value
        (Str.drop 1 (encodeAddress (instructions (take 14 example_sum))))
      = instructions (take 14 example_sum).
Proof.
  apply (label_reference_line (take 14 example_sum) "(END)"
           (drop 15 example_sum) "@END" "END").
  - solve_source_fits.
  - by vm_compute.
  - by vm_compute.
  - refine (proj1 (Forall_forall (λ r, view r ≠ Ok (Label "END"))
                     (take 14 example_sum)) _).
    repeat (first [apply Forall_nil_2 | apply Forall_cons_2]);
      by vm_compute.
  - do 6 right. left.
  - by vm_compute.
  - by vm_compute.
Defined.

Example example_sum_output :
  main example_sum
  = Ok (0, ["0000000000010000"; "1110101010001000"; "0000000000000000";
            "1111110000010000"; "0000000000001100"; "1110001100000010";
            "0000000000010000"; "1111000010001000"; "0000000000000000";
            "1111110010001000"; "0000000000000010"; "1110101010000111";
            "0000000000001100"; "1110101010000111"]).
Proof. by vm_compute. Qed.

(** * Reading the file *)

Lemma getline_lines content :
  lines_of content = (getline content).1 :: stream_lines (getline content).2.
Proof.
  induction content as [|c rest IH]; [done|]. simpl.
  destruct (Ascii.eqb c newline); [done|].
  rewrite IH. by destruct (getline rest) as [line f].
Qed.

Lemma length_lines_of content :
  (length (lines_of content) <= S (String.length content))%nat.
Proof.
  induction content as [|c rest IH]; simpl; [lia|].
  destruct (Ascii.eqb c newline); simpl; [lia|].
  destruct (lines_of rest); simpl in *; lia.
Qed.

(** With fuel for one turn more than there are lines left, the loop on
    the stream is the loop over those lines. *)
Lemma read_lines_while {St : Type} (body : St -> string -> result St) fuel :
  ∀ st inputFile,
    (length (stream_lines inputFile) < fuel)%nat ->
    read_lines fuel body st inputFile
    = while_lines body st (stream_lines inputFile).
Proof.
  induction fuel as [|fuel IH]; intros st [content eof] Hfuel; [lia|].
  cbn [read_lines]. unfold hasMoreLines. unfold stream_lines in Hfuel |- *.
  cbn [eofbit unread] in Hfuel |- *.
  destruct eof; [done|]. cbn [negb].
  rewrite getline_lines in Hfuel |- *.
  destruct (getline content) as [raw f]. cbn [fst snd length] in Hfuel |- *.
  cbn [while_lines].
  destruct (body st raw) as [st'| |]; cbn [mbind result_bind]; [|done..].
  apply IH. lia.
Qed.

Lemma read_pass_while {St : Type} (body : St -> string -> result St) st
    content :
  read_pass body st content = while_lines body st (lines_of content).
Proof.
  unfold read_pass. rewrite read_lines_while; [done|].
  unfold stream_lines, Parser_new. simpl.
  pose proof (length_lines_of content). lia.
Qed.

(** X17.  Each of the three loops reads the file to its end and stops:
    the run on the content of a file is the run on its lines, the
    pieces of the content between its newlines, the last of them being
    what follows the last newline. *)
Theorem main_file_lines content :
  main_file content = main (lines_of content)
  ∧ (∀ l, l ∈ lines_of content -> has_char newline l = false).
Proof.
  split.
  - unfold main_file, main, resolve, pass1, pass2, pass3.
    rewrite read_pass_while.
    destruct (while_lines pass1_body _ _) as [[t1 a1]| |]; simpl; [|done..].
    rewrite read_pass_while.
    destruct (while_lines pass2_body _ _) as [[t2 a2]| |]; simpl; [|done..].
    by rewrite read_pass_while.
  - induction content as [|c rest IH]; intros l Hl; simpl in Hl.
    + apply list_elem_of_singleton in Hl as ->. done.
    + destruct (Ascii.eqb_spec c newline) as [->|Hc].
      * apply elem_of_cons in Hl as [->|Hl]; [done|by apply IH].
      * destruct (lines_of rest) as [|l0 ls].
        { apply list_elem_of_singleton in Hl as ->.
          rewrite has_char_cons. apply orb_false_iff. split; [|done].
          by apply Ascii.eqb_neq. }
        apply elem_of_cons in Hl as [->|Hl].
        -- rewrite has_char_cons. apply orb_false_iff.
           split; [by apply Ascii.eqb_neq|]. apply IH. left.
        -- apply IH. by right.
Qed.

Lemma lines_of_newline content :
  lines_of (content +:+ String newline "") = lines_of content ++ [""].
Proof.
  induction content as [|c rest IH]; [done|].
  change (String c rest +:+ String newline "")
    with (String c (rest +:+ String newline "")).
  cbn [lines_of]. rewrite IH.
  destruct (Ascii.eqb c newline); [done|].
  pose proof (getline_lines rest) as Hrest.
  destruct (lines_of rest) as [|l ls]; [done|]. done.
Qed.

Lemma while_lines_empty_line {St : Type} (body : St -> string -> result St)
    st file :
  (∀ st, body st "" = Ok st) ->
  while_lines body st (file ++ [""]) = while_lines body st file.
Proof.
  intros Hbody. rewrite <- (app_nil_r file) at 2.
  by apply while_lines_skip.
Qed.

(** X18.  A newline at the end of the file makes no difference: the
    run on a content followed by a newline is the run on the content,
    whether or not the content ends in a newline already. *)
Theorem final_newline content :
  main_file (content +:+ String newline "") = main_file content.
Proof.
  assert (∀ st, pass1_body st "" = Ok st) as H1 by by intros [].
  assert (∀ st, pass2_body st "" = Ok st) as H2 by by intros [].
  assert (∀ st, pass3_body st "" = Ok st) as H3 by done.
  unfold main_file. rewrite !read_pass_while, lines_of_newline.
  rewrite while_lines_empty_line by done.
  destruct (while_lines pass1_body _ _) as [[t1 a1]| |]; simpl; [|done..].
  rewrite !read_pass_while, lines_of_newline.
  rewrite while_lines_empty_line by done.
  destruct (while_lines pass2_body _ _) as [[t2 a2]| |]; simpl; [|done..].
  rewrite !read_pass_while, lines_of_newline.
  by rewrite while_lines_empty_line by done.
Qed.

Example main_file_loop :
  main_file
    (String "(" (String "L" (String ")" (String newline
       (String "@" (String "L" (String newline
          (String "0" (String ";" (String "J" (String "M" (String "P"
             (String newline "")))))))))))))
  = Ok (0, ["0000000000000000"; "1110101010000111"])
  ∧ main_file "" = Ok (0, []).
Proof. split; by vm_compute. Qed.

(** * Blank lines, and the symbol table on a missing key *)

(** A line that the loops leave out can be taken out of the file. *)
Lemma ignored_line_skipped pre raw post :
  view raw = Ok Ignored ->
  pass1 (pre ++ raw :: post) = pass1 (pre ++ post)
  ∧ (∀ t, pass2 t (pre ++ raw :: post) = pass2 t (pre ++ post))
  ∧ (∀ t, pass3 t (pre ++ raw :: post) = pass3 t (pre ++ post))
  ∧ main (pre ++ raw :: post) = main (pre ++ post).
Proof.
  intros Hv.
  assert (∀ st, pass1_body st raw = Ok st) as H1
    by (intros st; by rewrite (pass1_body_view _ _ _ Hv)).
  assert (∀ st, pass2_body st raw = Ok st) as H2
    by (intros [t a]; by rewrite (pass2_body_view _ _ _ Hv)).
  assert (∀ st, pass3_body st raw = Ok st) as H3
    by (intros st; by rewrite (pass3_body_view _ _ _ Hv)).
  assert (pass1 (pre ++ raw :: post) = pass1 (pre ++ post)) as Hp1
    by (by apply while_lines_skip).
  assert (∀ t, pass2 t (pre ++ raw :: post) = pass2 t (pre ++ post)) as Hp2
    by (intros t; by apply while_lines_skip).
  assert (∀ t, pass3 t (pre ++ raw :: post) = pass3 t (pre ++ post)) as Hp3
    by (intros t; by apply while_lines_skip).
  split_and!; try done.
  unfold main, resolve. rewrite Hp1.
  destruct (pass1 (pre ++ post)) as [[t1 a1]| |]; simpl; [|done..].
  rewrite Hp2.
  destruct (pass2 t1 (pre ++ post)) as [[t2 a2]| |]; simpl; [|done..].
  by rewrite Hp3.
Qed.

(** X19.  A line made of spaces only (of at most [INT_MAX] of them),
    like an empty line, is skipped by the three loops: the passes and
    the whole run give what they give on the file without that line. *)
Theorem blank_lines_skipped pre raw post :
  line_fits raw ->
  without_spaces raw = "" ->
  view raw = Ok Ignored
  ∧ pass1 (pre ++ raw :: post) = pass1 (pre ++ post)
  ∧ (∀ t, pass2 t (pre ++ raw :: post) = pass2 t (pre ++ post))
  ∧ (∀ t, pass3 t (pre ++ raw :: post) = pass3 t (pre ++ post))
  ∧ main (pre ++ raw :: post) = main (pre ++ post).
Proof.
  intros Hfit Hblank.
  assert (view raw = Ok Ignored) as Hv.
  { unfold view. rewrite advance_ok, Hblank by done. reflexivity. }
  split; [done|]. by apply ignored_line_skipped.
Qed.

(** A line of three spaces between two instructions. *)
Lemma blank_lines_skipped_witness :
  view "   " = Ok Ignored
  ∧ pass1 (["@1"] ++ "   " :: ["D=A"]) = pass1 (["@1"] ++ ["D=A"])
  ∧ (∀ t, pass2 t (["@1"] ++ "   " :: ["D=A"])
          = pass2 t (["@1"] ++ ["D=A"]))
  ∧ (∀ t, pass3 t (["@1"] ++ "   " :: ["D=A"])
          = pass3 t (["@1"] ++ ["D=A"]))
  ∧ main (["@1"] ++ "   " :: ["D=A"]) = main (["@1"] ++ ["D=A"]).
Proof.
  apply (blank_lines_skipped ["@1"] "   " ["D=A"]); by vm_compute.
Defined.

(** X20.  [getAddress] on a symbol that the table does not hold
    answers 0 and enters the symbol with that address, so that
    [contains] answers true from then on and a second [getAddress]
    changes nothing more; on a symbol that [addEntry] has entered it
    answers the address entered and leaves the table alone. *)
Theorem getAddress_missing_key (t : gmap string Z) s a :
  contains t s = false ->
  (getAddress t s).1 = 0
  ∧ contains (getAddress t s).2 s = true
  ∧ getAddress (getAddress t s).2 s = (0, (getAddress t s).2)
  ∧ (∀ s', s' ≠ s -> (getAddress t s).2 !! s' = t !! s')
  ∧ contains (addEntry t s a) s = true
  ∧ getAddress (addEntry t s a) s = (a, addEntry t s a).
Proof.
  intros Hs. apply bool_decide_eq_false in Hs.
  assert (t !! s = None) as Hnone
    by (destruct (t !! s) eqn:H; [destruct Hs; by eexists|done]).
  unfold getAddress, subscript, addEntry, assign. rewrite Hnone. simpl.
  rewrite !lookup_insert_eq. split_and!; try done.
  - by eapply contains_true, lookup_insert_eq.
  - intros s' Hne. by rewrite lookup_insert_ne.
  - by eapply contains_true, lookup_insert_eq.
Qed.

(** The symbol x on the table of the constructor. *)
Lemma getAddress_missing_key_witness :
  (getAddress SymbolTable_new "x").1 = 0
  ∧ contains (getAddress SymbolTable_new "x").2 "x" = true
  ∧ getAddress (getAddress SymbolTable_new "x").2 "x"
    = (0, (getAddress SymbolTable_new "x").2)
  ∧ (∀ s', s' ≠ "x" ->
           (getAddress SymbolTable_new "x").2 !! s' = SymbolTable_new !! s')
  ∧ contains (addEntry SymbolTable_new "x" 7) "x" = true
  ∧ getAddress (addEntry SymbolTable_new "x" 7) "x"
    = (7, addEntry SymbolTable_new "x" 7).
Proof. apply (getAddress_missing_key SymbolTable_new "x" 7). by vm_compute. Defined.
